(** * page-summarizer.py: fetch a page, extract its text, ask an LLM for a summary

    A shallow embedding of [page-summarizer.py].  Python objects become
    records whose fields are the attributes the methods assign; methods
    become functions in a small state-and-exception monad that also keeps
    the log of calls made across the program's boundaries (HTTP, the
    OpenAI client, the console).  The libraries the program calls
    ([requests], the HTML parser behind [BeautifulSoup], [openai], [int])
    are collected in a record [World]; the tree operations the program
    performs on the parsed document ([soup.title], [soup.body], calling a
    tag, [decompose], [get_text], [.string]) are modelled on the tree. *)

From Stdlib Require Import ZArith QArith List Ascii String.
From stdpp Require Import gmap strings.
Import ListNotations.

Local Open Scope Z_scope.

(** ** Python values and exceptions *)

(** A value that is either [None] or a [str]. *)
Inductive pyval : Type :=
| PyNone
| PyStr (s : string).

(** [str(v)], which is what an f-string field applies to [v]. *)
Definition py_str (v : pyval) : string :=
  match v with
  | PyNone => "None"
  | PyStr s => s
  end.

(** Truthiness of [v] in [if v:]. *)
Definition py_truthy (v : pyval) : bool :=
  match v with
  | PyNone => false
  | PyStr s => negb (String.eqb s "")
  end.

(** An exception: the name of its class and its message. *)
Record exn : Type := Exn { exn_class : string; exn_msg : string }.

Definition ValueError (msg : string) : exn := Exn "ValueError" msg.
Definition TypeError (msg : string) : exn := Exn "TypeError" msg.
Definition IndexError (msg : string) : exn := Exn "IndexError" msg.
Definition AttributeError (msg : string) : exn := Exn "AttributeError" msg.

Inductive result (A : Type) : Type :=
| Ok (a : A)
| Raise (e : exn).
Arguments Ok {A} a.
Arguments Raise {A} e.

Definition dquote : string := String "034"%char EmptyString.
Definition newline : string := String "010"%char EmptyString.

(** [s] occurs in [t] as a contiguous substring. *)
Definition is_substring (s t : string) : Prop :=
  exists pre post : string, t = pre +:+ s +:+ post.

(** [c.lower()] for a character of ASCII: the capitals [A] to [Z] move
    to [a] to [z], every other character stays. *)
Definition lower_char (c : ascii) : ascii :=
  let n := nat_of_ascii c in
  if (65 <=? n)%nat && (n <=? 90)%nat then ascii_of_nat (n + 32) else c.

(** [s.lower()] for text in ASCII, which is where it is used below. *)
Fixpoint str_lower (s : string) : string :=
  match s with
  | EmptyString => EmptyString
  | String c rest => String (lower_char c) (str_lower rest)
  end.

(** ** The parsed document

    [BeautifulSoup] builds a tree of tags and strings.  Every node is a
    Python object; [nid] stands for its identity.  A string node has a
    class: ordinary text is a [NavigableString], and the parser wraps
    comments, CDATA sections, declarations and (in recent versions) the
    contents of some tags in subclasses of it. *)

Inductive string_class : Type :=
| NavigableString | CData | Comment | Declaration | Doctype
| ProcessingInstruction | Script | Stylesheet | TemplateString
| RubyTextString | RubyParenthesisString.

#[local] Set Warnings "-register-all".
Inductive node : Type :=
| Str (nid : nat) (cls : string_class) (s : string)
| Tag (nid : nat) (name : string) (contents : list node).

Definition nid (n : node) : nat :=
  match n with
  | Str i _ _ => i
  | Tag i _ _ => i
  end.

(** [n.descendants]: every node below [n], in document order. *)
Fixpoint descendants (n : node) : list node :=
  match n with
  | Str _ _ _ => []
  | Tag _ _ cs => flat_map (fun c => c :: descendants c) cs
  end.

(** A tag whose name is one of [names]. *)
Definition has_name (names : list string) (n : node) : bool :=
  match n with
  | Str _ _ _ => false
  | Tag _ nm _ => existsb (String.eqb nm) names
  end.

(** [n.find(name)], which is also what [n.title] and [n.body] mean: the
    first descendant tag with that name, or [None]. *)
Definition find (name : string) (n : node) : option node :=
  List.find (has_name [name]) (descendants n).

(** [n.find_all(names)], which is what calling a tag, [n(names)], means:
    all descendant tags with one of the names, in document order. *)
Definition find_all (names : list string) (n : node) : list node :=
  List.filter (has_name names) (descendants n).

(** [n.string]: the single string below a chain of only children. *)
Fixpoint tag_string (n : node) : pyval :=
  match n with
  | Str _ _ s => PyStr s
  | Tag _ _ [c] => tag_string c
  | Tag _ _ _ => PyNone
  end.

(** The string classes [get_text] keeps for an ordinary tag. *)
Definition interesting (n : node) : bool :=
  match n with
  | Str _ NavigableString _ | Str _ CData _ => true
  | _ => false
  end.

Definition node_text (n : node) : string :=
  match n with
  | Str _ _ s => s
  | Tag _ _ _ => ""
  end.

Definition _all_strings (n : node) : list node :=
  List.filter interesting (descendants n).

(** [n.get_text()]: the kept strings below [n], joined with nothing
    between them. *)
Definition get_text (n : node) : string :=
  String.concat "" (map node_text (_all_strings n)).

(** [x.decompose()], seen from the tree [n] that holds [x]: the subtree
    rooted at the object [x] is taken out of its parent's contents and
    destroyed.  When [x] is no longer in the tree, nothing changes. *)
Fixpoint decompose (x : node) (n : node) {struct n} : node :=
  match n with
  | Str _ _ _ => n
  | Tag i nm cs =>
      Tag i nm (flat_map (fun c => if Nat.eqb (nid c) (nid x) then []
                                   else [decompose x c]) cs)
  end.

(** [drop P n]: the tree [n] without the subtrees whose root satisfies
    [P]. *)
Fixpoint drop (P : node -> bool) (n : node) : node :=
  match n with
  | Str _ _ _ => n
  | Tag i nm cs =>
      Tag i nm (flat_map (fun c => if P c then [] else [drop P c]) cs)
  end.

(** The tree below [n] once every element named in [names] is gone,
    descendants and all: the spec's description of the removal step. *)
Definition prune (names : list string) (n : node) : node :=
  drop (has_name names) n.

(** The nodes of a list of sibling subtrees, in document order. *)
Definition forest (cs : list node) : list node :=
  flat_map (fun c => c :: descendants c) cs.

Definition drop_forest (P : node -> bool) (cs : list node) : list node :=
  flat_map (fun c => if P c then [] else [drop P c]) cs.

(** The objects of a list of nodes. *)
Definition ids (l : list node) : list nat := map nid l.

(** Every object of the tree is a different object. *)
Definition distinct_objects (n : node) : Prop :=
  List.NoDup (ids (descendants n)).

(** Whether the object [n] is one of the objects [xs]. *)
Definition among (xs : list node) (n : node) : bool :=
  existsb (Nat.eqb (nid n)) (ids xs).

(** The title element's text, as the spec words the title. *)
Definition title_text (soup : node) : option string :=
  match find "title" soup with
  | Some t => Some (get_text t)
  | None => None
  end.

(** ** The boundaries of the program *)

(** What [requests.get] returns, as far as the program reads it. *)
Record Response : Type := { status_code : Z; content : string }.

(** A chat message is a Python dict from strings to strings. *)
Abbreviation Message := (gmap string string).

Record ChatRequest : Type := {
  model : string;
  messages : list Message;
  temperature : Q;
  max_tokens : Z
}.

Record ChatCompletionMessage : Type := { message_content : pyval }.
Record Choice : Type := { message : ChatCompletionMessage }.
Record ChatCompletion : Type := { choices : list Choice }.

Record OpenAIClient : Type := { api_key : pyval }.

(** The libraries the program calls.  Each call either returns or raises. *)
Record World : Type := {
  dotenv_values : string -> gmap string (option string);
  int : string -> result Z;
  requests_get : string -> result Response;
  BeautifulSoup : string -> result node;
  OpenAI : pyval -> result OpenAIClient;
  chat_completions_create : OpenAIClient -> ChatRequest -> result ChatCompletion
}.

(** What [console.print] is given. *)
Inductive printable : Type :=
| Markdown (markup : pyval)
| Plain (s : string).

(** The calls that leave the program, in the order they are made. *)
Inductive event : Type :=
| EvHttpGet (url : string)
| EvOpenAI (key : pyval)
| EvChatCreate (client : OpenAIClient) (req : ChatRequest)
| EvConsolePrint (p : printable).

(** ** A monad for methods

    A method of an object of type [S] reads and assigns the attributes of
    [self], appends to the log of boundary calls, and returns or raises.
    The state of [self] and the log survive an exception. *)

Definition M (S A : Type) : Type :=
  S -> list event -> result A * S * list event.

Definition ret {S A} (a : A) : M S A :=
  fun self log => (Ok a, self, log).

Definition raise {S A} (e : exn) : M S A :=
  fun self log => (Raise e, self, log).

Definition bind {S A B} (c : M S A) (k : A -> M S B) : M S B :=
  fun self log =>
    match c self log with
    | (Ok a, self', log') => k a self' log'
    | (Raise e, self', log') => (Raise e, self', log')
    end.

Definition get_self {S} : M S S :=
  fun self log => (Ok self, self, log).

Definition assign {S} (f : S -> S) : M S unit :=
  fun self log => (Ok tt, f self, log).

(** A call across a boundary: logged, then its outcome. *)
Definition call {S A} (ev : event) (r : result A) : M S A :=
  fun self log => (r, self, log ++ [ev]).

(** A computation that needs no log, such as reading an attribute. *)
Definition lift {S A} (r : result A) : M S A :=
  fun self log => (r, self, log).

Declare Scope method_scope.
Delimit Scope method_scope with method.
Notation "x <- c ;; k" := (bind c (fun x => k))
  (at level 100, c at next level, right associativity) : method_scope.
Notation "c ;;; k" := (bind c (fun _ => k))
  (at level 100, right associativity) : method_scope.

Definition outcome {S A} (r : result A * S * list event) : result A := r.1.1.
Definition self_after {S A} (r : result A * S * list event) : S := r.1.2.
Definition log_after {S A} (r : result A * S * list event) : list event := r.2.

(** ** class Config *)

Module Config.

Record t : Type := { _config : gmap string (option string) }.

(** [load_dotenv] also copies the file into the process environment,
    which nothing here reads back. *)
Definition __init__ (W : World) (filename : string) : t :=
  {| _config := dotenv_values W filename |}.

(** [self._config.get(key, None)] *)
Definition get (self : t) (key : string) : pyval :=
  match _config self !! key with
  | Some (Some v) => PyStr v
  | Some None => PyNone
  | None => PyNone
  end.

Definition get_int (W : World) (self : t) (key : string) : result (option Z) :=
  match get self key with
  | PyStr value =>
      match int W value with
      | Ok n => Ok (Some n)
      | Raise e => Raise e
      end
  | PyNone => Ok None
  end.

(** [value.lower() in ("true", "1", "yes")], or [None] without a value. *)
Definition get_bool (self : t) (key : string) : option bool :=
  match get self key with
  | PyStr value => Some (existsb (String.eqb (str_lower value)) ["true"; "1"; "yes"])
  | PyNone => None
  end.

Definition openai_api_key (self : t) : pyval :=
  get self "OPENAI_API_KEY".

End Config.

(** ** class Website *)

Module Website.

(** The three private attributes; [None] is an attribute not assigned
    yet.  [__title] holds whatever [soup.title.string] was, which may be
    Python's [None]. *)
Record t : Type := {
  __url : option string;
  __title : option pyval;
  __text : option string
}.

Definition unassigned : t :=
  {| __url := None; __title := None; __text := None |}.

Definition no_attribute (attr : string) : exn :=
  AttributeError ("'Website' object has no attribute '_Website" +:+ attr +:+ "'").

Definition url (self : t) : result string :=
  match __url self with
  | Some u => Ok u
  | None => Raise (no_attribute "__url")
  end.

Definition title (self : t) : result pyval :=
  match __title self with
  | Some v => Ok v
  | None => Raise (no_attribute "__title")
  end.

Definition text (self : t) : result string :=
  match __text self with
  | Some s => Ok s
  | None => Raise (no_attribute "__text")
  end.

Definition irrelevant_tags : list string := ["script"; "style"; "img"; "input"].

Definition not_callable : exn :=
  TypeError "'NoneType' object is not callable".

Definition no_get_text : exn :=
  AttributeError "'NoneType' object has no attribute 'get_text'".

(** [soup.title.string if soup.title else "No title found"]; a tag is
    true in a condition even when it is empty. *)
Definition title_of (soup : node) : pyval :=
  match find "title" soup with
  | Some t => tag_string t
  | None => PyStr "No title found"
  end.

(** The [for] loop: each found element is decomposed in turn, in the
    one tree they all live in. *)
Definition decompose_all (found : list node) (soup : node) : node :=
  fold_left (fun soup irrelevant => decompose irrelevant soup) found soup.

Local Open Scope method_scope.

(** The setter of the [url] property. *)
Definition set_url (W : World) (url : string) : M t unit :=
  assign (fun self => {| __url := Some url;
                         __title := __title self;
                         __text := __text self |}) ;;;
  response <- call (EvHttpGet url) (requests_get W url) ;;
  if status_code response =? 200 then
    soup <- lift (BeautifulSoup W (content response)) ;;
    assign (fun self => {| __url := __url self;
                           __title := Some (title_of soup);
                           __text := __text self |}) ;;;
    match find "body" soup with
    | None => raise not_callable
    | Some body =>
        let soup := decompose_all (find_all irrelevant_tags body) soup in
        match find "body" soup with
        | None => raise no_get_text
        | Some body =>
            assign (fun self => {| __url := __url self;
                                   __title := __title self;
                                   __text := Some (get_text body) |})
        end
    end
  else
    raise (ValueError ("Failed to fetch the URL: " +:+ url)).

Definition __init__ (W : World) (url : string) : M t unit :=
  set_url W url.

(** The expression [Website(url)], evaluated inside a method of some
    other object: a fresh object is initialised, and the caller gets it
    only if [__init__] returns. *)
Definition new {S : Type} (W : World) (url : string) : M S t :=
  fun caller log =>
    match __init__ W url unassigned log with
    | (Ok _, self, log') => (Ok self, caller, log')
    | (Raise e, _, log') => (Raise e, caller, log')
    end.

(** [f"Website(url={self.url}, title=\"{self.title}\")"] *)
Definition __str__ (self : t) : result string :=
  match url self with
  | Raise e => Raise e
  | Ok u =>
      match title self with
      | Raise e => Raise e
      | Ok t =>
          Ok ("Website(url=" +:+ u +:+ ", title=" +:+ dquote +:+ py_str t +:+
              dquote +:+ ")")
      end
  end.

End Website.

(** ** class LlmSummarizer *)

Module LlmSummarizer.

(** [__config] is what [__init__] was given (possibly Python's [None]);
    [__openai] and [__system_behavior] start as the class attributes
    [None] and are filled in on first use. *)
Record t : Type := {
  __config : option Config.t;
  __openai : option OpenAIClient;
  __system_behavior : option Message
}.

Definition __init__ (config : option Config.t) : t :=
  {| __config := config; __openai := None; __system_behavior := None |}.

Local Open Scope method_scope.

Definition config : M t Config.t :=
  self <- get_self ;;
  match __config self with
  | None => raise (ValueError "Config not initialized")
  | Some c => ret c
  end.

Definition openai (W : World) : M t OpenAIClient :=
  self <- get_self ;;
  match __openai self with
  | Some client => ret client
  | None =>
      cfg <- config ;;
      let key := Config.openai_api_key cfg in
      client <- call (EvOpenAI key) (OpenAI W key) ;;
      assign (fun self => {| __config := __config self;
                             __openai := Some client;
                             __system_behavior := __system_behavior self |}) ;;;
      ret client
  end.

Definition system_content : string :=
  "You are an assistant that analyzes the contents of a website " +:+
  "and provides a short summary, ignoring the text that might be navigation-related." +:+
  "Respond in markdown and be concise.".

Definition system_message : Message :=
  {[ "role" := "system"; "content" := system_content ]}.

Definition system_behavior : M t Message :=
  self <- get_self ;;
  match __system_behavior self with
  | Some m => ret m
  | None =>
      assign (fun self => {| __config := __config self;
                             __openai := __openai self;
                             __system_behavior := Some system_message |}) ;;;
      ret system_message
  end.

Definition user_prompt_content (title : pyval) (text : string) : string :=
  "You are looking at the website titled " +:+ dquote +:+ py_str title +:+ dquote +:+
  "The content of this website is as follows; " +:+
  "please provide a short summary of this website in markdown." +:+
  "If it includes news or announcements, then summarize these too." +:+
  newline +:+ newline +:+
  dquote +:+ dquote +:+ dquote +:+ newline +:+ text +:+ newline +:+
  dquote +:+ dquote +:+ dquote +:+ newline +:+ newline.

Definition user_prompt_for (website : Website.t) : M t Message :=
  title <- lift (Website.title website) ;;
  text <- lift (Website.text website) ;;
  ret ({[ "role" := "user";
          "content" := user_prompt_content title text ]} : Message).

Definition messages_for (website : Website.t) : M t (list Message) :=
  system <- system_behavior ;;
  user <- user_prompt_for website ;;
  ret [system; user].

(** The keyword arguments of [chat.completions.create]. *)
Definition chat_request (messages : list Message) : ChatRequest :=
  {| model := "gpt-4o-mini";
     messages := messages;
     temperature := 2 # 10;
     max_tokens := 512 |}.

Definition summarize (W : World) (website : Website.t + string) : M t pyval :=
  website <- match website with
             | inr url => Website.new W url
             | inl page => ret page
             end ;;
  messages <- messages_for website ;;
  client <- openai W ;;
  let req := chat_request messages in
  response <- call (EvChatCreate client req) (chat_completions_create W client req) ;;
  match choices response with
  | [] => raise (IndexError "list index out of range")
  | first :: _ => ret (message_content (message first))
  end.

End LlmSummarizer.

(** ** The presenter and the entry point *)

Section Presenter.
Context {S : Type}.
Local Open Scope method_scope.

Definition console_print (p : printable) : M S unit :=
  call (EvConsolePrint p) (Ok tt).

Definition display_markdown (content : pyval) : M S unit :=
  console_print (Markdown content).

Definition show_summary (summary : pyval) : M S unit :=
  if py_truthy summary then display_markdown summary
  else console_print (Plain "No summary found.").
End Presenter.

(** The script body: the summarizer object is the state. *)
Definition main (W : World) : list event -> result unit * LlmSummarizer.t * list event :=
  let summarizer := LlmSummarizer.__init__ (Some (Config.__init__ W ".env")) in
  (summary <- LlmSummarizer.summarize W (inr "https://cnn.com") ;;
   show_summary summary)%method summarizer.

(** ** Vocabulary of the properties *)

(** All three attributes of a page are assigned. *)
Definition populated (page : Website.t) : Prop :=
  is_Some (Website.__url page) /\ is_Some (Website.__title page) /\
  is_Some (Website.__text page).

(** How a page comes to [summarize]: handed over ready, or built from a
    URL. *)
Definition fetched (W : World) (input : Website.t + string) (page : Website.t) : Prop :=
  match input with
  | inl given => given = page /\ populated page
  | inr url => outcome (Website.new W url tt []) = Ok page
  end.

(** The client [self.openai] yields: the one held, or a new one built
    from the configured key. *)
Definition client_for (W : World) (self : LlmSummarizer.t) (client : OpenAIClient) : Prop :=
  match LlmSummarizer.__openai self with
  | Some held => held = client
  | None =>
      exists cfg, LlmSummarizer.__config self = Some cfg /\
                  OpenAI W (Config.openai_api_key cfg) = Ok client
  end.

Definition is_chat_create (ev : event) : bool :=
  match ev with
  | EvChatCreate _ _ => true
  | _ => false
  end.

Definition is_markdown_print (ev : event) : bool :=
  match ev with
  | EvConsolePrint (Markdown _) => true
  | _ => false
  end.

(** The number of chat-completion calls in a log. *)
Definition llm_calls (log : list event) : nat :=
  length (List.filter is_chat_create log).

(** The number of times markdown was rendered in a log. *)
Definition markdown_calls (log : list event) : nat :=
  length (List.filter is_markdown_print log).

(** The states a summarizer object goes through: as constructed, and
    after any of its methods has run (whether it returned or raised). *)
Inductive reachable (W : World) : LlmSummarizer.t -> Prop :=
| reach_init config :
    reachable W (LlmSummarizer.__init__ config)
| reach_config self log :
    reachable W self ->
    reachable W (self_after (LlmSummarizer.config self log))
| reach_openai self log :
    reachable W self ->
    reachable W (self_after (LlmSummarizer.openai W self log))
| reach_system_behavior self log :
    reachable W self ->
    reachable W (self_after (LlmSummarizer.system_behavior self log))
| reach_user_prompt_for website self log :
    reachable W self ->
    reachable W (self_after (LlmSummarizer.user_prompt_for website self log))
| reach_messages_for website self log :
    reachable W self ->
    reachable W (self_after (LlmSummarizer.messages_for website self log))
| reach_summarize website self log :
    reachable W self ->
    reachable W (self_after (LlmSummarizer.summarize W website self log)).

(** The cached system message, when there is one, is the fixed one. *)
Definition cache_ok (self : LlmSummarizer.t) : Prop :=
  LlmSummarizer.__system_behavior self = None \/
  LlmSummarizer.__system_behavior self = Some LlmSummarizer.system_message.

(** [P] only holds of objects below the element [b]. *)
Definition only_below (P : node -> bool) (b : node) (l : list node) : Prop :=
  forall m, In m l -> P m = true -> In (nid m) (ids (descendants b)).

(** The first element called [name] is still the first after a removal
    that only touches what lies below it. *)
Definition found_after (name : string) (P : node -> bool) (n : node) : Prop :=
  forall b,
    distinct_objects n ->
    find name n = Some b ->
    only_below P b (descendants n) ->
    find name (drop P n) = Some (drop P b).

(** No object at or below an element named in [names] is left in the
    pruned tree. *)
Definition outside (names : list string) (n : node) : Prop :=
  distinct_objects n ->
  forall x y,
    In x (descendants n) -> has_name names x = true ->
    x = y \/ In y (descendants x) ->
    ~ In (nid y) (ids (descendants (prune names n))).

(** The object once the setter has assigned [__url]. *)
Definition with_url (url : string) (self : Website.t) : Website.t :=
  {| Website.__url := Some url;
     Website.__title := Website.__title self;
     Website.__text := Website.__text self |}.

(** The summarizer once the system message is cached. *)
Definition cached (self : LlmSummarizer.t) : LlmSummarizer.t :=
  {| LlmSummarizer.__config := LlmSummarizer.__config self;
     LlmSummarizer.__openai := LlmSummarizer.__openai self;
     LlmSummarizer.__system_behavior := Some LlmSummarizer.system_message |}.

(** The dict [user_prompt_for] returns for a given title and text. *)
Definition user_message (title : pyval) (text : string) : Message :=
  {[ "role" := "user";
     "content" := LlmSummarizer.user_prompt_content title text ]}.

(** The method [c] keeps the property [I] of [self], however it ends. *)
Definition preserves {S A : Type} (I : S -> Prop) (c : M S A) : Prop :=
  forall self log, I self -> I (self_after (c self log)).

(** ** Sample documents and worlds *)

Module Sample.

(** [<body><script>x</script><p>Hello</p></body>], with the script's
    text as a plain string, as older parsers leave it. *)
Definition page_body : node :=
  Tag 4 "body"
    [Tag 5 "script" [Str 6 NavigableString "x"];
     Tag 7 "p" [Str 8 NavigableString "Hello"]].

(** [<html><title>T</title><body>...</body></html>] around it. *)
Definition page_doc : node :=
  Tag 0 "[document]"
    [Tag 1 "html" [Tag 2 "title" [Str 3 NavigableString "T"]; page_body]].

(** [<html><head><title></title></head><body><p>Hi</p></body></html>] *)
Definition empty_title_doc : node :=
  Tag 0 "[document]"
    [Tag 1 "html"
       [Tag 2 "head" [Tag 3 "title" []];
        Tag 4 "body" [Tag 5 "p" [Str 6 NavigableString "Hi"]]]].

(** [<html><body><p>Hi</p></body></html>] *)
Definition untitled_doc : node :=
  Tag 0 "[document]"
    [Tag 1 "html"
       [Tag 2 "body" [Tag 3 "p" [Str 4 NavigableString "Hi"]]]].

(** [<title>T</title><p>Hello</p>]: the parser adds no body. *)
Definition bodiless_doc : node :=
  Tag 0 "[document]"
    [Tag 1 "title" [Str 2 NavigableString "T"];
     Tag 3 "p" [Str 4 NavigableString "Hello"]].

Definition is_digit (c : ascii) : bool :=
  (48 <=? nat_of_ascii c)%nat && (nat_of_ascii c <=? 57)%nat.

Fixpoint digits (acc : Z) (s : string) : option Z :=
  match s with
  | EmptyString => Some acc
  | String c rest =>
      if is_digit c
      then digits (10 * acc + Z.of_nat (nat_of_ascii c - 48)) rest
      else None
  end.

(** [int] on plain decimal literals, which is all the samples use. *)
Definition decimal (s : string) : result Z :=
  match s with
  | EmptyString => Raise (ValueError "invalid literal for int() with base 10: ''")
  | _ =>
      match digits 0 s with
      | Some n => Ok n
      | None =>
          Raise (ValueError ("invalid literal for int() with base 10: '" +:+ s +:+ "'"))
      end
  end.

Definition env : gmap string (option string) :=
  {[ "OPENAI_API_KEY" := Some "sk-test";
     "RETRIES" := Some "3";
     "PORT" := Some "http";
     "EMPTY" := None ]}.

Definition one_choice (s : string) : list Choice :=
  [ {| message := {| message_content := PyStr s |} |} ].

(** A world in which every URL answers with [status] and an HTML text
    that parses to [doc], and every chat completion has the choices
    [answer]. *)
Definition world (status : Z) (doc : node) (answer : list Choice) : World :=
  {| dotenv_values := fun _ => env;
     int := decimal;
     requests_get := fun _ => Ok {| status_code := status; content := "<html>" |};
     BeautifulSoup := fun _ => Ok doc;
     OpenAI := fun key => Ok {| api_key := key |};
     chat_completions_create := fun _ _ => Ok {| choices := answer |} |}.

(** A world with two addresses, each with its own document. *)
Definition two_sites : World :=
  {| dotenv_values := fun _ => env;
     int := decimal;
     requests_get := fun url => Ok {| status_code := 200; content := url |};
     BeautifulSoup := fun html =>
       Ok (if String.eqb html "http://a.example" then page_doc else untitled_doc);
     OpenAI := fun key => Ok {| api_key := key |};
     chat_completions_create := fun _ _ => Ok {| choices := [] |} |}.

Definition config : Config.t := Config.__init__ (world 200 page_doc []) ".env".

Definition summarizer : LlmSummarizer.t := LlmSummarizer.__init__ (Some config).

End Sample.

(** ** Further vocabulary *)

Definition is_http_get (ev : event) : bool :=
  match ev with
  | EvHttpGet _ => true
  | _ => false
  end.

Definition is_client_build (ev : event) : bool :=
  match ev with
  | EvOpenAI _ => true
  | _ => false
  end.


(** How often a kind of call occurs in a log. *)
Definition count (kind : event -> bool) (log : list event) : nat :=
  length (List.filter kind log).

(** The method [c], started in a state with [I], ends in a state with [I]
    and adds to the log only events that pass [Q]. *)
Definition emits {S A : Type} (I : S -> Prop) (Q : event -> bool) (c : M S A) : Prop :=
  forall self log,
    I self ->
    I (self_after (c self log)) /\
    exists added, log_after (c self log) = log ++ added /\ forallb Q added = true.

(** The summarizer once it holds [client]. *)
Definition with_client (client : OpenAIClient) (self : LlmSummarizer.t) : LlmSummarizer.t :=
  {| LlmSummarizer.__config := LlmSummarizer.__config self;
     LlmSummarizer.__openai := Some client;
     LlmSummarizer.__system_behavior := LlmSummarizer.__system_behavior self |}.

(** The GET that [summarize] makes for its input. *)
Definition gets_of (input : Website.t + string) : list event :=
  match input with
  | inr url => [EvHttpGet url]
  | inl _ => []
  end.

(** The client construction that [self.openai] makes. *)
Definition builds_of (self : LlmSummarizer.t) : list event :=
  match LlmSummarizer.__openai self, LlmSummarizer.__config self with
  | None, Some cfg => [EvOpenAI (Config.openai_api_key cfg)]
  | _, _ => []
  end.

Definition is_lower_letter (c : ascii) : bool :=
  (97 <=? nat_of_ascii c)%nat && (nat_of_ascii c <=? 122)%nat.

Definition upper_char (c : ascii) : ascii :=
  if is_lower_letter c then ascii_of_nat (nat_of_ascii c - 32) else c.

(** Every way of writing [s] with each of its small letters small or
    capital. *)
Fixpoint spellings (s : string) : list string :=
  match s with
  | EmptyString => [EmptyString]
  | String c rest =>
      flat_map (fun t => if is_lower_letter c
                         then [String c t; String (upper_char c) t]
                         else [String c t])
               (spellings rest)
  end.

(** The values [get_bool] takes for true. *)
Definition truthy_values : list string :=
  spellings "true" ++ spellings "1" ++ spellings "yes".

(** Text in ASCII. *)
Fixpoint is_ascii (s : string) : bool :=
  match s with
  | EmptyString => true
  | String c rest => (nat_of_ascii c <? 128)%nat && is_ascii rest
  end.

(** ** Worlds in which something is down *)

Module Faults.

(** The chat completion fails. *)
Definition llm_down : World :=
  {| dotenv_values := fun _ => Sample.env;
     int := Sample.decimal;
     requests_get := fun _ => Ok {| status_code := 200; content := "<html>" |};
     BeautifulSoup := fun _ => Ok Sample.page_doc;
     OpenAI := fun key => Ok {| api_key := key |};
     chat_completions_create := fun _ _ =>
       Raise (Exn "APIConnectionError" "Connection error.") |}.

(** The client cannot be built. *)
Definition no_client : World :=
  {| dotenv_values := fun _ => Sample.env;
     int := Sample.decimal;
     requests_get := fun _ => Ok {| status_code := 200; content := "<html>" |};
     BeautifulSoup := fun _ => Ok Sample.page_doc;
     OpenAI := fun _ => Raise (Exn "OpenAIError" "The api_key client option must be set");
     chat_completions_create := fun _ _ => Ok {| choices := [] |} |}.

(** The network is down. *)
Definition offline : World :=
  {| dotenv_values := fun _ => Sample.env;
     int := Sample.decimal;
     requests_get := fun _ => Raise (Exn "ConnectionError" "Max retries exceeded");
     BeautifulSoup := fun _ => Ok Sample.page_doc;
     OpenAI := fun key => Ok {| api_key := key |};
     chat_completions_create := fun _ _ => Ok {| choices := [] |} |}.

(** The sample page, as a page object. *)
Definition page : Website.t :=
  {| Website.__url := Some "http://example.com";
     Website.__title := Some (PyStr "T");
     Website.__text := Some "Hello" |}.

(** A configuration file without the API key. *)
Definition keyless : Config.t := {| Config._config := {[ "RETRIES" := Some "3" ]} |}.

End Faults.

(** * Properties of the document tree *)

Section TreeFacts.

Lemma node_rect_forall (P : node -> Prop) :
  (forall i k s, P (Str i k s)) ->
  (forall i nm cs, Forall P cs -> P (Tag i nm cs)) ->
  forall n, P n.
Proof.
  intros HStr HTag. fix IH 1. intros [i k s | i nm cs].
  - apply HStr.
  - apply HTag. induction cs as [| c cs IHcs]; constructor; auto.
Qed.

Lemma descendants_Tag i nm cs : descendants (Tag i nm cs) = forest cs.
Proof. reflexivity. Qed.

Lemma forest_cons c cs : forest (c :: cs) = c :: descendants c ++ forest cs.
Proof. reflexivity. Qed.

Lemma in_forest m cs :
  In m (forest cs) <-> exists c, In c cs /\ (c = m \/ In m (descendants c)).
Proof. unfold forest. rewrite in_flat_map. reflexivity. Qed.

Lemma descendants_trans n : forall b x,
  In b (descendants n) -> In x (descendants b) -> In x (descendants n).
Proof.
  induction n as [i k s | i nm cs IH] using node_rect_forall; intros b x Hb Hx.
  - destruct Hb.
  - rewrite descendants_Tag, in_forest in *.
    destruct Hb as (c & Hc & [-> | Hb]).
    + exists b. split; [assumption | right; assumption].
    + exists c. split; [assumption | right].
      rewrite List.Forall_forall in IH. eapply IH; eauto.
Qed.

Lemma forest_trans cs b x :
  In b (forest cs) -> In x (descendants b) -> In x (forest cs).
Proof. apply (descendants_trans (Tag 0 "" cs)). Qed.

Lemma find_app {A} (p : A -> bool) l1 l2 :
  List.find p (l1 ++ l2) =
  match List.find p l1 with Some x => Some x | None => List.find p l2 end.
Proof.
  induction l1 as [| a l1 IH]; simpl; [reflexivity |].
  destruct (p a); auto.
Qed.

Lemma find_all_false {A} (p : A -> bool) l :
  (forall x, In x l -> p x = false) -> List.find p l = None.
Proof.
  induction l as [| a l IH]; simpl; intros H; [reflexivity |].
  rewrite (H a) by auto. auto.
Qed.

Lemma ids_app l1 l2 : ids (l1 ++ l2) = ids l1 ++ ids l2.
Proof. apply map_app. Qed.

Lemma in_ids x l : In x l -> In (nid x) (ids l).
Proof. apply in_map. Qed.

Lemma NoDup_ids_inj l x y :
  List.NoDup (ids l) -> In x l -> In y l -> nid x = nid y -> x = y.
Proof.
  induction l as [| a l IH]; simpl; intros Hnd Hx Hy E; [tauto |].
  inversion Hnd as [| ? ? Hnotin Hnd']; subst.
  destruct Hx as [-> | Hx], Hy as [-> | Hy]; auto.
  - exfalso. apply Hnotin. rewrite E. now apply in_ids.
  - exfalso. apply Hnotin. rewrite <- E. now apply in_ids.
Qed.

Lemma NoDup_app_disjoint {A} (l1 l2 : list A) :
  List.NoDup (l1 ++ l2) -> forall a, In a l1 -> ~ In a l2.
Proof.
  induction l1 as [| b l1 IH]; simpl; intros Hnd a Ha Ha2; [tauto |].
  inversion Hnd as [| ? ? Hfresh Hnd']; subst.
  destruct Ha as [-> | Ha].
  - apply Hfresh. apply in_or_app. auto.
  - eapply IH; eauto.
Qed.

(** The objects below a node of a tree of distinct objects are distinct. *)
Lemma distinct_forest cs b :
  Forall (fun c => forall b, In b (descendants c) ->
                   distinct_objects c -> distinct_objects b) cs ->
  In b (forest cs) -> List.NoDup (ids (forest cs)) -> distinct_objects b.
Proof.
  unfold distinct_objects.
  induction 1 as [| c cs Hc _ IHcs]; intros Hb Hnd; [destruct Hb |].
  rewrite forest_cons in Hb, Hnd. simpl in Hnd. rewrite ids_app in Hnd.
  inversion Hnd as [| ? ? _ Hnd']; subst.
  destruct Hb as [<- | Hb]; [| apply in_app_or in Hb; destruct Hb as [Hb | Hb]].
  - eapply List.NoDup_app_remove_r; eauto.
  - apply (Hc b Hb). eapply List.NoDup_app_remove_r; eauto.
  - apply IHcs; [assumption |]. eapply List.NoDup_app_remove_l; eauto.
Qed.

Lemma distinct_descendant n : forall b,
  In b (descendants n) -> distinct_objects n -> distinct_objects b.
Proof.
  induction n as [i k s | i nm cs IH] using node_rect_forall; intros b Hb Hnd.
  - destruct Hb.
  - eapply distinct_forest; eauto.
Qed.

End TreeFacts.

(** * Removing subtrees *)

Section Removal.

Lemma nid_drop P n : nid (drop P n) = nid n.
Proof. destruct n; reflexivity. Qed.

Lemma has_name_drop names P n : has_name names (drop P n) = has_name names n.
Proof. destruct n; reflexivity. Qed.

Lemma drop_Tag P i nm cs : drop P (Tag i nm cs) = Tag i nm (drop_forest P cs).
Proof. reflexivity. Qed.

Lemma drop_forest_cons P c cs :
  drop_forest P (c :: cs) = (if P c then [] else [drop P c]) ++ drop_forest P cs.
Proof. reflexivity. Qed.

Lemma drop_forest_app P l1 l2 :
  drop_forest P (l1 ++ l2) = drop_forest P l1 ++ drop_forest P l2.
Proof. apply flat_map_app. Qed.

Lemma in_drop_forest P c' cs :
  In c' (drop_forest P cs) <-> exists c, In c cs /\ P c = false /\ c' = drop P c.
Proof.
  unfold drop_forest. rewrite in_flat_map. split.
  - intros (c & Hc & Hin). exists c. destruct (P c); simpl in Hin.
    + tauto.
    + intuition congruence.
  - intros (c & Hc & HP & ->). exists c. rewrite HP. simpl. auto.
Qed.

(** A node of the tree after removal is what is left of a node of the
    tree before. *)
Lemma in_descendants_drop P n : forall m',
  In m' (descendants (drop P n)) ->
  exists m, In m (descendants n) /\ m' = drop P m.
Proof.
  induction n as [i k s | i nm cs IH] using node_rect_forall; intros m' Hm'.
  - destruct Hm'.
  - rewrite drop_Tag, descendants_Tag, in_forest in Hm'.
    destruct Hm' as (c' & Hc' & Hm').
    apply in_drop_forest in Hc'. destruct Hc' as (c & Hc & _ & ->).
    destruct Hm' as [<- | Hm'].
    + exists c. split; [| reflexivity].
      rewrite descendants_Tag, in_forest. eauto.
    + rewrite List.Forall_forall in IH.
      destruct (IH c Hc m' Hm') as (m & Hm & ->).
      exists m. split; [| reflexivity].
      rewrite descendants_Tag, in_forest. eauto.
Qed.

Lemma ids_drop_subset P n i :
  In i (ids (descendants (drop P n))) -> In i (ids (descendants n)).
Proof.
  unfold ids. rewrite !in_map_iff. intros (m' & <- & Hm').
  apply in_descendants_drop in Hm'. destruct Hm' as (m & Hm & ->).
  exists m. split; [symmetry; apply nid_drop | assumption].
Qed.

Lemma find_drop_None names P n :
  List.find (has_name names) (descendants n) = None ->
  List.find (has_name names) (descendants (drop P n)) = None.
Proof.
  intros Hnone. apply find_all_false. intros m' Hm'.
  apply in_descendants_drop in Hm'. destruct Hm' as (m & Hm & ->).
  rewrite has_name_drop. eapply find_none; eauto.
Qed.

Lemma drop_ext_in P Q n :
  (forall m, In m (descendants n) -> P m = Q m) -> drop P n = drop Q n.
Proof.
  induction n as [i k s | i nm cs IH] using node_rect_forall; intros HPQ.
  - reflexivity.
  - rewrite !drop_Tag. f_equal. rewrite descendants_Tag in HPQ.
    assert (Hin : forall m, In m (forest cs) -> P m = Q m) by exact HPQ.
    clear HPQ. induction IH as [| c cs Hc _ IHcs]; [reflexivity |].
    rewrite !drop_forest_cons, forest_cons in *.
    rewrite (Hin c) by (left; reflexivity).
    rewrite Hc by (intros m Hm; apply Hin; right; apply in_or_app; auto).
    rewrite IHcs by (intros m Hm; apply Hin; right; apply in_or_app; auto).
    reflexivity.
Qed.

Lemma drop_none n : drop (fun _ => false) n = n.
Proof.
  induction n as [i k s | i nm cs IH] using node_rect_forall; [reflexivity |].
  rewrite drop_Tag. f_equal.
  induction IH as [| c cs Hc _ IHcs]; [reflexivity |].
  rewrite drop_forest_cons, Hc, IHcs. reflexivity.
Qed.

(** Two removals in a row, the second by a test that only looks at the
    object, are one removal. *)
Lemma drop_drop P Q n :
  (forall m, Q (drop P m) = Q m) ->
  drop Q (drop P n) = drop (fun m => P m || Q m) n.
Proof.
  intros HQ.
  induction n as [i k s | i nm cs IH] using node_rect_forall; [reflexivity |].
  rewrite !drop_Tag. f_equal.
  induction IH as [| c cs Hc _ IHcs]; [reflexivity |].
  rewrite !drop_forest_cons, drop_forest_app, IHcs. f_equal.
  destruct (P c); simpl; [reflexivity |].
  rewrite HQ. destruct (Q c); simpl; [reflexivity |].
  rewrite Hc. reflexivity.
Qed.

Lemma decompose_drop x n :
  decompose x n = drop (fun c => Nat.eqb (nid c) (nid x)) n.
Proof.
  induction n as [i k s | i nm cs IH] using node_rect_forall; [reflexivity |].
  rewrite drop_Tag. simpl. f_equal.
  induction IH as [| c cs Hc _ IHcs]; [reflexivity |].
  rewrite drop_forest_cons. simpl. rewrite IHcs, Hc.
  destruct (Nat.eqb (nid c) (nid x)); reflexivity.
Qed.

(** The loop removes exactly the subtrees whose root is one of the found
    objects. *)
Lemma decompose_all_drop found : forall soup,
  Website.decompose_all found soup = drop (among found) soup.
Proof.
  unfold Website.decompose_all.
  induction found as [| x found IH]; intros soup; simpl.
  - unfold among. simpl. symmetry. apply drop_none.
  - rewrite IH, decompose_drop, drop_drop.
    + apply drop_ext_in. intros m _. reflexivity.
    + intros m. unfold among. rewrite nid_drop. reflexivity.
Qed.

End Removal.

(** * The body survives the loop, and what is left of it *)

Section Body.

Variable name : string.
Variable P : node -> bool.

Lemma find_drop_forest cs :
  Forall (found_after name P) cs ->
  forall b,
    List.NoDup (ids (forest cs)) ->
    List.find (has_name [name]) (forest cs) = Some b ->
    only_below P b (forest cs) ->
    List.find (has_name [name]) (forest (drop_forest P cs)) = Some (drop P b).
Proof.
  induction 1 as [| c cs Hc _ IHcs]; intros b Hnd Hfind HP; [discriminate |].
  unfold found_after, find, distinct_objects, only_below in *.
  rewrite forest_cons in Hnd, Hfind, HP.
  simpl in Hnd. rewrite ids_app in Hnd.
  inversion Hnd as [| ? ? Hfresh Hnd']; subst.
  assert (Hsub : forall x, In x (descendants b) ->
                           In x (descendants c ++ forest cs)).
  { intros x Hx. apply find_some in Hfind. destruct Hfind as [Hb _].
    apply in_or_app.
    destruct Hb as [<- | Hb]; [left; assumption |].
    apply in_app_or in Hb. destruct Hb as [Hb | Hb].
    - left. eapply descendants_trans; eauto.
    - right. eapply forest_trans; eauto. }
  assert (HPc : P c = false).
  { destruct (P c) eqn:E; [| reflexivity]. exfalso. apply Hfresh.
    specialize (HP c (or_introl eq_refl) E).
    rewrite <- ids_app. unfold ids in *. rewrite in_map_iff in *.
    destruct HP as (x & Hx & Hin). eauto. }
  rewrite drop_forest_cons, HPc. simpl app. rewrite forest_cons.
  simpl in Hfind |- *. rewrite has_name_drop.
  destruct (has_name [name] c) eqn:Hname.
  - congruence.
  - rewrite find_app in Hfind |- *.
    destruct (List.find (has_name [name]) (descendants c)) as [b0 |] eqn:Hc0.
    + injection Hfind as ->. rewrite (Hc b).
      * reflexivity.
      * eapply List.NoDup_app_remove_r; eauto.
      * reflexivity.
      * intros m Hm. apply HP. right. apply in_or_app. auto.
    + rewrite find_drop_None by assumption. apply IHcs; try assumption.
      * eapply List.NoDup_app_remove_l; eauto.
      * intros m Hm. apply HP. right. apply in_or_app. auto.
Qed.

Lemma find_drop n : found_after name P n.
Proof.
  induction n as [i k s | i nm cs IH] using node_rect_forall;
    unfold found_after, find, distinct_objects, only_below; intros b Hnd Hfind HP.
  - discriminate.
  - rewrite drop_Tag, descendants_Tag in *. now apply find_drop_forest.
Qed.

End Body.

Section Pruning.

Variable names : list string.

(** In a tree of distinct objects, being one of the found objects and
    carrying one of the names are the same thing. *)
Lemma among_find_all body m :
  distinct_objects body -> In m (descendants body) ->
  among (find_all names body) m = has_name names m.
Proof.
  intros Hnd Hm. unfold among, find_all.
  destruct (has_name names m) eqn:Hname.
  - apply existsb_exists. exists (nid m). split; [| apply Nat.eqb_refl].
    apply in_ids. apply filter_In. auto.
  - destruct (existsb _ _) eqn:E; [| reflexivity].
    apply existsb_exists in E. destruct E as (j & Hj & Heq).
    apply Nat.eqb_eq in Heq. subst j.
    unfold ids in Hj. apply in_map_iff in Hj. destruct Hj as (x & Hx & Hin).
    apply filter_In in Hin. destruct Hin as [Hin Hx'].
    assert (x = m) by (eapply NoDup_ids_inj; eauto).
    congruence.
Qed.

Lemma drop_found_prune body :
  distinct_objects body ->
  drop (among (find_all names body)) body = prune names body.
Proof.
  intros Hnd. apply drop_ext_in. intros m Hm. now apply among_find_all.
Qed.

Lemma pruned_forest_outside cs :
  Forall (outside names) cs ->
  List.NoDup (ids (forest cs)) ->
  forall x y,
    In x (forest cs) -> has_name names x = true ->
    x = y \/ In y (descendants x) ->
    ~ In (nid y) (ids (forest (drop_forest (has_name names) cs))).
Proof.
  induction 1 as [| c cs Hc _ IHcs]; intros Hnd x y Hx Hname Hy; [destruct Hx |].
  unfold outside, distinct_objects in Hc.
  rewrite forest_cons in Hnd, Hx. simpl in Hnd. rewrite ids_app in Hnd.
  inversion Hnd as [| ? ? Hfresh Hnd']; subst.
  pose proof (List.NoDup_app_remove_r _ _ Hnd') as Hndc.
  pose proof (NoDup_app_disjoint _ _ Hnd') as Hdisj.
  rewrite in_app_iff in Hfresh.
  rewrite drop_forest_cons. unfold forest at 1. rewrite flat_map_app.
  fold (forest (drop_forest (has_name names) cs)).
  rewrite ids_app, in_app_iff.
  assert (Hrest : forall i, In i (ids (forest (drop_forest (has_name names) cs))) ->
                            In i (ids (forest cs))).
  { intros i. apply (ids_drop_subset (has_name names) (Tag 0 "" cs)). }
  assert (Hhead : forall i,
             In i (ids (flat_map (fun c0 => c0 :: descendants c0)
                          (if has_name names c then [] else [prune names c]))) ->
             has_name names c = false /\
             (i = nid c \/ In i (ids (descendants (prune names c))))).
  { intros i. destruct (has_name names c); simpl; [tauto |].
    rewrite app_nil_r. unfold prune. rewrite nid_drop. intuition. }
  destruct Hx as [<- | Hx]; [| apply in_app_or in Hx; destruct Hx as [Hx | Hx]].
  - (* the named element is this child *)
    intros [Hin | Hin].
    + apply Hhead in Hin. destruct Hin as [Hin _]. congruence.
    + apply Hrest in Hin. destruct Hy as [<- | Hy].
      * tauto.
      * apply (Hdisj (nid y)); [now apply in_ids | assumption].
  - (* it lies below this child *)
    assert (Hyc : In y (descendants c)).
    { destruct Hy as [<- | Hy]; [assumption |]. eapply descendants_trans; eauto. }
    intros [Hin | Hin].
    + apply Hhead in Hin. destruct Hin as [_ [Hin | Hin]].
      * apply Hfresh. left. rewrite <- Hin. now apply in_ids.
      * revert Hin. apply (Hc Hndc x y); assumption.
    + apply Hrest in Hin. apply (Hdisj (nid y)); [now apply in_ids | assumption].
  - (* it lies in a later sibling *)
    assert (Hycs : In y (forest cs)).
    { destruct Hy as [<- | Hy]; [assumption |]. eapply forest_trans; eauto. }
    intros [Hin | Hin].
    + apply Hhead in Hin. destruct Hin as [_ [Hin | Hin]].
      * apply Hfresh. right. rewrite <- Hin. now apply in_ids.
      * apply ids_drop_subset in Hin.
        apply (Hdisj (nid y)); [assumption | now apply in_ids].
    + revert Hin. apply (IHcs (List.NoDup_app_remove_l _ _ Hnd') x y); assumption.
Qed.

Lemma pruned_outside n : outside names n.
Proof.
  induction n as [i k s | i nm cs IH] using node_rect_forall;
    unfold outside, distinct_objects; intros Hnd x y Hx Hname Hy.
  - destruct Hx.
  - unfold prune. rewrite drop_Tag, descendants_Tag in *.
    now apply (pruned_forest_outside cs IH Hnd x y).
Qed.

End Pruning.

(** * Running the methods *)

Section Methods.

Context (W : World).

(** ** The setter of [url] *)

Lemma set_url_bad_status url r self log :
  requests_get W url = Ok r -> status_code r <> 200 ->
  Website.set_url W url self log =
  (Raise (ValueError ("Failed to fetch the URL: " +:+ url)),
   with_url url self, log ++ [EvHttpGet url]).
Proof.
  intros Hget Hstatus. unfold Website.set_url, bind, assign, call. rewrite Hget.
  destruct (Z.eqb_spec (status_code r) 200) as [E | _]; [contradiction |].
  reflexivity.
Qed.

Lemma set_url_no_body url r soup self log :
  requests_get W url = Ok r -> status_code r = 200 ->
  BeautifulSoup W (content r) = Ok soup ->
  find "body" soup = None ->
  Website.set_url W url self log =
  (Raise Website.not_callable,
   {| Website.__url := Some url;
      Website.__title := Some (Website.title_of soup);
      Website.__text := Website.__text self |},
   log ++ [EvHttpGet url]).
Proof.
  intros Hget Hstatus Hparse Hbody.
  unfold Website.set_url, bind, assign, call, lift.
  rewrite Hget, Hstatus, Hparse, Hbody. reflexivity.
Qed.

(** After the loop the body is still found, and it is the pruned body. *)
Lemma body_after_loop soup body :
  distinct_objects soup -> find "body" soup = Some body ->
  find "body" (Website.decompose_all (find_all Website.irrelevant_tags body) soup)
  = Some (prune Website.irrelevant_tags body).
Proof.
  intros Hnd Hbody. rewrite decompose_all_drop.
  assert (Hin : In body (descendants soup)) by apply (find_some _ _ Hbody).
  rewrite (find_drop "body" _ soup body Hnd Hbody).
  - f_equal. apply drop_found_prune. eapply distinct_descendant; eauto.
  - intros m _ Hm. unfold among in Hm. apply existsb_exists in Hm.
    destruct Hm as (j & Hj & Heq). apply Nat.eqb_eq in Heq. subst j.
    unfold ids, find_all in *. rewrite in_map_iff in *.
    destruct Hj as (x & Hx & Hfound). apply filter_In in Hfound.
    exists x. tauto.
Qed.

Lemma set_url_ok url r soup body self log :
  requests_get W url = Ok r -> status_code r = 200 ->
  BeautifulSoup W (content r) = Ok soup ->
  distinct_objects soup -> find "body" soup = Some body ->
  Website.set_url W url self log =
  (Ok tt,
   {| Website.__url := Some url;
      Website.__title := Some (Website.title_of soup);
      Website.__text := Some (get_text (prune Website.irrelevant_tags body)) |},
   log ++ [EvHttpGet url]).
Proof.
  intros Hget Hstatus Hparse Hnd Hbody.
  unfold Website.set_url, bind, assign, call, lift.
  rewrite Hget, Hstatus, Hparse, Hbody. simpl.
  rewrite (body_after_loop soup body Hnd Hbody). reflexivity.
Qed.

(** Whenever the setter returns, it has assigned all three attributes,
    and what it assigned does not depend on what was there before. *)
Lemma set_url_returns url self log :
  outcome (Website.set_url W url self log) = Ok tt ->
  populated (self_after (Website.set_url W url self log)) /\
  Website.__url (self_after (Website.set_url W url self log)) = Some url /\
  forall other log',
    self_after (Website.set_url W url other log') =
    self_after (Website.set_url W url self log).
Proof.
  unfold Website.set_url, bind, assign, call, lift, raise, populated,
    outcome, self_after.
  destruct (requests_get W url) as [r | e]; simpl; [| discriminate].
  destruct (status_code r =? 200); simpl; [| discriminate].
  destruct (BeautifulSoup W (content r)) as [soup | e]; simpl; [| discriminate].
  destruct (find "body" soup) as [body |]; simpl; [| discriminate].
  destruct (find "body" (Website.decompose_all _ soup)) as [body' |]; simpl;
    [| discriminate].
  intros _. repeat split; eauto.
Qed.

Lemma new_set_url {S} url (caller : S) log :
  Website.new W url caller log =
  (match outcome (Website.set_url W url Website.unassigned log) with
   | Ok _ => Ok (self_after (Website.set_url W url Website.unassigned log))
   | Raise e => Raise e
   end, caller, log_after (Website.set_url W url Website.unassigned log)).
Proof.
  unfold Website.new, Website.__init__, outcome, self_after, log_after.
  destruct (Website.set_url W url Website.unassigned log) as [[[u | e] self] log'];
    reflexivity.
Qed.

(** The page built does not depend on who builds it or on the log. *)
Lemma new_outcome_irrelevant {S T} url (c1 : S) (c2 : T) log1 log2 :
  outcome (Website.new W url c1 log1) = outcome (Website.new W url c2 log2).
Proof.
  unfold Website.new, Website.__init__, Website.set_url, bind, assign, call,
    lift, raise, outcome.
  destruct (requests_get W url) as [r | e]; simpl; [| reflexivity].
  destruct (status_code r =? 200); simpl; [| reflexivity].
  destruct (BeautifulSoup W (content r)) as [soup | e]; simpl; [| reflexivity].
  destruct (find "body" soup) as [body |]; simpl; [| reflexivity].
  destruct (find "body" (Website.decompose_all _ soup)); reflexivity.
Qed.

Lemma new_log {S} url (caller : S) log :
  log_after (Website.new W url caller log) = log ++ [EvHttpGet url] /\
  self_after (Website.new W url caller log) = caller.
Proof.
  unfold Website.new, Website.__init__, Website.set_url, bind, assign, call,
    lift, raise, log_after, self_after.
  destruct (requests_get W url) as [r | e]; simpl; [| auto].
  destruct (status_code r =? 200); simpl; [| auto].
  destruct (BeautifulSoup W (content r)) as [soup | e]; simpl; [| auto].
  destruct (find "body" soup) as [body |]; simpl; [| auto].
  destruct (find "body" (Website.decompose_all _ soup)); auto.
Qed.

Lemma new_populated {S} url (caller : S) log page :
  outcome (Website.new W url caller log) = Ok page ->
  populated page /\ Website.__url page = Some url.
Proof.
  rewrite new_set_url. unfold outcome at 1. simpl.
  destruct (outcome (Website.set_url W url Website.unassigned log)) as [[] | e] eqn:E;
    [| discriminate].
  intros [= <-]. destruct (set_url_returns _ _ _ E) as (Hp & Hu & _). auto.
Qed.

End Methods.

(** * The summarizer's own state *)

Section Summarizer.

Context (W : World).

Lemma run_eta {S A} (r : result A * S * list event) :
  r = (outcome r, self_after r, log_after r).
Proof. destruct r as [[a s] l]. reflexivity. Qed.

Lemma preserves_bind {S A B} (I : S -> Prop) (c : M S A) (k : A -> M S B) :
  preserves I c -> (forall a, preserves I (k a)) -> preserves I (bind c k).
Proof.
  intros Hc Hk self log HI. specialize (Hc self log HI).
  unfold bind, self_after in *.
  destruct (c self log) as [[[a | e] self'] log']; simpl in *.
  - apply Hk. assumption.
  - assumption.
Qed.

Lemma preserves_same {S A} (I : S -> Prop) (c : M S A) :
  (forall self log, self_after (c self log) = self) -> preserves I c.
Proof. intros H self log HI. rewrite H. assumption. Qed.

Lemma preserves_assign {S} (I : S -> Prop) (f : S -> S) :
  (forall self, I self -> I (f self)) -> preserves I (assign f).
Proof. intros H self log HI. apply H. assumption. Qed.

Ltac same_self := apply preserves_same; intros; reflexivity.

Lemma config_keeps_cache : preserves cache_ok LlmSummarizer.config.
Proof.
  apply preserves_bind; [same_self |].
  intros self. destruct (LlmSummarizer.__config self); same_self.
Qed.

Lemma openai_keeps_cache : preserves cache_ok (LlmSummarizer.openai W).
Proof.
  apply preserves_bind; [same_self |].
  intros self. destruct (LlmSummarizer.__openai self); [same_self |].
  apply preserves_bind; [apply config_keeps_cache |]. intros cfg.
  apply preserves_bind; [same_self |]. intros client.
  apply preserves_bind; [| intros; same_self].
  apply preserves_assign. intros s Hs. exact Hs.
Qed.

Lemma system_behavior_keeps_cache : preserves cache_ok LlmSummarizer.system_behavior.
Proof.
  apply preserves_bind; [same_self |].
  intros self. destruct (LlmSummarizer.__system_behavior self); [same_self |].
  apply preserves_bind; [| intros; same_self].
  apply preserves_assign. intros s _. right. reflexivity.
Qed.

Lemma user_prompt_for_keeps_cache page :
  preserves cache_ok (LlmSummarizer.user_prompt_for page).
Proof.
  apply preserves_bind; [same_self |]. intros title.
  apply preserves_bind; [same_self |]. intros text. same_self.
Qed.

Lemma messages_for_keeps_cache page :
  preserves cache_ok (LlmSummarizer.messages_for page).
Proof.
  apply preserves_bind; [apply system_behavior_keeps_cache |]. intros system.
  apply preserves_bind; [apply user_prompt_for_keeps_cache |]. intros user.
  same_self.
Qed.

Lemma summarize_keeps_cache input :
  preserves cache_ok (LlmSummarizer.summarize W input).
Proof.
  apply preserves_bind.
  { destruct input as [page | url]; [same_self |].
    apply preserves_same. intros self log. apply new_log. }
  intros page.
  apply preserves_bind; [apply messages_for_keeps_cache |]. intros msgs.
  apply preserves_bind; [apply openai_keeps_cache |]. intros client.
  apply preserves_bind; [same_self |]. intros response.
  destruct (choices response); same_self.
Qed.

(** Every state a summarizer goes through has the fixed system message
    cached, or none. *)
Lemma reachable_cache_ok self : reachable W self -> cache_ok self.
Proof.
  induction 1.
  - left. reflexivity.
  - now apply config_keeps_cache.
  - now apply openai_keeps_cache.
  - now apply system_behavior_keeps_cache.
  - now apply user_prompt_for_keeps_cache.
  - now apply messages_for_keeps_cache.
  - now apply summarize_keeps_cache.
Qed.

Lemma system_behavior_run self log :
  cache_ok self ->
  LlmSummarizer.system_behavior self log =
  (Ok LlmSummarizer.system_message, cached self, log).
Proof.
  unfold LlmSummarizer.system_behavior, bind, get_self, assign, ret, cached.
  destruct self as [cfg client sb]. unfold cache_ok. simpl.
  intros [-> | ->]; reflexivity.
Qed.

End Summarizer.

(** * Building the prompt *)

Section Prompt.

Lemma append_assoc (a b c : string) : (a +:+ b) +:+ c = a +:+ b +:+ c.
Proof.
  induction a as [| ch a IH]; [reflexivity |].
  change (String ch ((a +:+ b) +:+ c) = String ch (a +:+ b +:+ c)).
  now rewrite IH.
Qed.

Lemma append_empty (a : string) : a +:+ "" = a.
Proof.
  induction a as [| ch a IH]; [reflexivity |].
  change (String ch (a +:+ "") = String ch a). now rewrite IH.
Qed.

Lemma is_substring_end s pre : is_substring s (pre +:+ s).
Proof. exists pre, "". now rewrite append_empty. Qed.

Lemma is_substring_here s post : is_substring s (s +:+ post).
Proof. exists "", post. reflexivity. Qed.

Lemma is_substring_later s pre t : is_substring s t -> is_substring s (pre +:+ t).
Proof.
  intros (p & q & ->). exists (pre +:+ p), q. now rewrite append_assoc.
Qed.

Lemma title_in_prompt (title text : string) :
  is_substring title (LlmSummarizer.user_prompt_content (PyStr title) text).
Proof.
  unfold LlmSummarizer.user_prompt_content, py_str.
  do 2 apply is_substring_later. apply is_substring_here.
Qed.

Lemma text_in_prompt (title : pyval) (text : string) :
  is_substring text (LlmSummarizer.user_prompt_content title text).
Proof.
  unfold LlmSummarizer.user_prompt_content.
  do 13 apply is_substring_later. apply is_substring_here.
Qed.

Lemma messages_for_run page title text self log :
  cache_ok self ->
  Website.title page = Ok title -> Website.text page = Ok text ->
  LlmSummarizer.messages_for page self log =
  (Ok [LlmSummarizer.system_message; user_message title text], cached self, log).
Proof.
  intros Hcache Htitle Htext. unfold LlmSummarizer.messages_for, bind.
  rewrite system_behavior_run by assumption.
  unfold LlmSummarizer.user_prompt_for, bind, lift, ret.
  rewrite Htitle, Htext. reflexivity.
Qed.

(** Building the messages touches neither the log nor the client. *)
Lemma messages_for_frame page self log :
  LlmSummarizer.messages_for page self log =
  (outcome (LlmSummarizer.messages_for page self []),
   self_after (LlmSummarizer.messages_for page self []), log) /\
  LlmSummarizer.__openai (self_after (LlmSummarizer.messages_for page self [])) =
  LlmSummarizer.__openai self /\
  LlmSummarizer.__config (self_after (LlmSummarizer.messages_for page self [])) =
  LlmSummarizer.__config self.
Proof.
  unfold LlmSummarizer.messages_for, LlmSummarizer.system_behavior,
    LlmSummarizer.user_prompt_for, bind, get_self, assign, lift, ret,
    outcome, self_after.
  destruct self as [cfg client [m |]]; simpl;
    destruct (Website.title page), (Website.text page); simpl; auto.
Qed.

Lemma openai_run W self client log :
  client_for W self client ->
  exists self' log', LlmSummarizer.openai W self log = (Ok client, self', log').
Proof.
  unfold client_for, LlmSummarizer.openai, LlmSummarizer.config, bind,
    get_self, assign, call, ret.
  destruct self as [cfg [held |] sb]; simpl.
  - intros ->. eauto.
  - intros (c & -> & Hnew). rewrite Hnew. eauto.
Qed.

End Prompt.

(** * The summarizer *)

(** C1, as the code has it.  When the page is there, the client is there
    and the chat completion returns, [summarize] returns the content of
    the first choice, text or [None] as the response has it; when the
    response has no choice, indexing the first one raises [IndexError]
    and no summary, absent or other, is returned. *)
Theorem summarize_first_choice
    (W : World) (input : Website.t + string) (self : LlmSummarizer.t)
    (log : list event) (page : Website.t) (msgs : list Message)
    (client : OpenAIClient) (response : ChatCompletion) :
  fetched W input page ->
  outcome (LlmSummarizer.messages_for page self []) = Ok msgs ->
  client_for W self client ->
  chat_completions_create W client (LlmSummarizer.chat_request msgs) = Ok response ->
  outcome (LlmSummarizer.summarize W input self log) =
  match choices response with
  | first :: _ => Ok (message_content (message first))
  | [] => Raise (IndexError "list index out of range")
  end.
Proof.
  intros Hfetched Hmsgs Hclient Hresponse.
  assert (Hpage : exists log1,
             match input with
             | inr url => Website.new W url
             | inl given => ret given
             end self log = (Ok page, self, log1)).
  { destruct input as [given | url]; simpl in Hfetched.
    - destruct Hfetched as [-> _]. exists log. reflexivity.
    - exists (log ++ [EvHttpGet url]).
      rewrite (run_eta (Website.new W url self log)).
      destruct (new_log W url self log) as [-> ->].
      rewrite (new_outcome_irrelevant W url self tt log []), Hfetched.
      reflexivity. }
  destruct Hpage as (log1 & Hpage).
  destruct (messages_for_frame page self log1) as (Hframe & Hopenai & Hconfig).
  assert (Hclient' : client_for W
            (self_after (LlmSummarizer.messages_for page self [])) client).
  { unfold client_for in *. rewrite Hopenai, Hconfig. exact Hclient. }
  destruct (openai_run W _ client log1 Hclient') as (self3 & log3 & Hrun).
  unfold LlmSummarizer.summarize, bind at 1. rewrite Hpage.
  unfold bind at 1. rewrite Hframe, Hmsgs.
  unfold bind at 1. rewrite Hrun.
  unfold bind, call. rewrite Hresponse.
  destruct (choices response); reflexivity.
Qed.

(** An instance: one choice, "Summary.", comes back as the summary. *)
Lemma summarize_first_choice_witness :
  outcome (LlmSummarizer.summarize
             (Sample.world 200 Sample.page_doc (Sample.one_choice "Summary."))
             (inr "http://example.com") Sample.summarizer [])
  = Ok (PyStr "Summary.").
Proof.
  apply (summarize_first_choice
           (Sample.world 200 Sample.page_doc (Sample.one_choice "Summary."))
           (inr "http://example.com") Sample.summarizer []
           {| Website.__url := Some "http://example.com";
              Website.__title := Some (PyStr "T");
              Website.__text := Some "Hello" |}
           [LlmSummarizer.system_message; user_message (PyStr "T") "Hello"]
           {| api_key := PyStr "sk-test" |}
           {| choices := Sample.one_choice "Summary." |}).
  - vm_compute. reflexivity.
  - vm_compute. reflexivity.
  - exists Sample.config. split; vm_compute; reflexivity.
  - reflexivity.
Defined.

(** C1, as stated, fails: a chat completion with zero choices does not
    make [summarize] return an absent summary; it raises. *)
Lemma summarize_no_choices :
  outcome (LlmSummarizer.summarize (Sample.world 200 Sample.page_doc [])
             (inr "http://example.com") Sample.summarizer [])
  = Raise (IndexError "list index out of range") /\
  outcome (LlmSummarizer.summarize (Sample.world 200 Sample.page_doc [])
             (inr "http://example.com") Sample.summarizer [])
  <> Ok PyNone.
Proof.
  assert (E : outcome (LlmSummarizer.summarize (Sample.world 200 Sample.page_doc [])
                         (inr "http://example.com") Sample.summarizer [])
              = Raise (IndexError "list index out of range"))
    by (vm_compute; reflexivity).
  split; [exact E | rewrite E; discriminate].
Qed.

(** C2, as the code has it.  When the GET answers with a status other
    than 200, building the page fails with a [ValueError] whose message
    holds the URL, and [summarize] given that URL fails the same way
    having made the GET and nothing else: the summarizer is untouched
    and the number of chat-completion calls has not moved. *)
Theorem summarize_bad_status
    (W : World) (url : string) (r : Response)
    (self : LlmSummarizer.t) (log : list event) :
  requests_get W url = Ok r -> status_code r <> 200 ->
  let e := ValueError ("Failed to fetch the URL: " +:+ url) in
  Website.new W url tt log = (Raise e, tt, log ++ [EvHttpGet url]) /\
  is_substring url (exn_msg e) /\
  LlmSummarizer.summarize W (inr url) self log =
    (Raise e, self, log ++ [EvHttpGet url]) /\
  llm_calls (log_after (LlmSummarizer.summarize W (inr url) self log)) =
  llm_calls log.
Proof.
  intros Hget Hstatus e.
  assert (Hnew : forall S (caller : S),
             Website.new W url caller log = (Raise e, caller, log ++ [EvHttpGet url])).
  { intros S caller. unfold Website.new, Website.__init__.
    rewrite (set_url_bad_status W url r _ _ Hget Hstatus). reflexivity. }
  assert (Hsum : LlmSummarizer.summarize W (inr url) self log =
                 (Raise e, self, log ++ [EvHttpGet url])).
  { unfold LlmSummarizer.summarize, bind at 1. rewrite Hnew. reflexivity. }
  repeat split.
  - apply Hnew.
  - apply is_substring_end.
  - exact Hsum.
  - rewrite Hsum. unfold log_after, llm_calls. simpl.
    rewrite List.filter_app, List.length_app. simpl. lia.
Qed.

(** An instance: a 404 stops [summarize] after the GET. *)
Lemma summarize_bad_status_witness :
  LlmSummarizer.summarize (Sample.world 404 Sample.page_doc [])
    (inr "http://example.com") Sample.summarizer [] =
  (Raise (ValueError "Failed to fetch the URL: http://example.com"),
   Sample.summarizer, [EvHttpGet "http://example.com"]).
Proof.
  apply (summarize_bad_status (Sample.world 404 Sample.page_doc [])
           "http://example.com" {| status_code := 404; content := "<html>" |}
           Sample.summarizer []).
  - reflexivity.
  - simpl. lia.
Defined.

(** C2, as stated, fails: the error does not carry the status code.  No
    reading of the error can give the status back, since a 404 and a 500
    raise the same error. *)
Lemma fetch_error_without_status :
  ~ exists status_of : exn -> Z,
      forall (W : World) (url : string) (r : Response),
        requests_get W url = Ok r -> status_code r <> 200 ->
        exists e, outcome (Website.new W url tt []) = Raise e /\
                  status_of e = status_code r.
Proof.
  intros (status_of & H).
  destruct (H (Sample.world 404 Sample.page_doc []) "http://example.com"
              {| status_code := 404; content := "<html>" |})
    as (e1 & He1 & H1); [reflexivity | simpl; lia |].
  destruct (H (Sample.world 500 Sample.page_doc []) "http://example.com"
              {| status_code := 500; content := "<html>" |})
    as (e2 & He2 & H2); [reflexivity | simpl; lia |].
  vm_compute in He1, He2. injection He1 as <-. injection He2 as <-.
  simpl in H1, H2. rewrite H1 in H2. discriminate.
Qed.

(** * Extraction *)

(** C3, as the code has it.  When a 200 response parses to a document
    with no body element, building the page fails: calling the missing
    body raises [TypeError], after the GET and before any text is
    assigned.  The code has no error of its own for this. *)
Theorem no_body_raises
    (W : World) (url : string) (r : Response) (soup : node) (log : list event) :
  requests_get W url = Ok r -> status_code r = 200 ->
  BeautifulSoup W (content r) = Ok soup ->
  find "body" soup = None ->
  Website.new W url tt log =
    (Raise Website.not_callable, tt, log ++ [EvHttpGet url]) /\
  exn_class Website.not_callable = "TypeError".
Proof.
  intros Hget Hstatus Hparse Hbody. split; [| reflexivity].
  unfold Website.new, Website.__init__.
  rewrite (set_url_no_body W url r soup _ _ Hget Hstatus Hparse Hbody).
  reflexivity.
Qed.

(** An instance: a document of a title and a paragraph, with no body. *)
Lemma no_body_raises_witness :
  Website.new (Sample.world 200 Sample.bodiless_doc []) "http://example.com" tt [] =
    (Raise Website.not_callable, tt, [EvHttpGet "http://example.com"]) /\
  exn_class Website.not_callable = "TypeError".
Proof.
  apply (no_body_raises (Sample.world 200 Sample.bodiless_doc [])
           "http://example.com" {| status_code := 200; content := "<html>" |}
           Sample.bodiless_doc []); reflexivity.
Defined.

(** C3, as stated, fails: the failure on a document without a body is
    not an [ExtractionError]. *)
Lemma no_body_not_ExtractionError :
  exists e,
    outcome (Website.new (Sample.world 200 Sample.bodiless_doc [])
               "http://example.com" tt []) = Raise e /\
    exn_class e <> "ExtractionError".
Proof.
  exists Website.not_callable. split; [vm_compute; reflexivity | discriminate].
Qed.

(** C4, as the code has it.  For a document with a body: when the title
    element holds exactly one string, the title is that string, which is
    the element's text when the string is ordinary text; when there is
    no title element, the title is ["No title found"]. *)
Theorem title_extracted
    (W : World) (url : string) (r : Response) (soup body : node)
    (log : list event) :
  requests_get W url = Ok r -> status_code r = 200 ->
  BeautifulSoup W (content r) = Ok soup ->
  distinct_objects soup -> find "body" soup = Some body ->
  exists page,
    outcome (Website.new W url tt log) = Ok page /\
    (forall i nm j cls s,
        find "title" soup = Some (Tag i nm [Str j cls s]) ->
        Website.title page = Ok (PyStr s) /\
        (interesting (Str j cls s) = true -> title_text soup = Some s)) /\
    (find "title" soup = None ->
     Website.title page = Ok (PyStr "No title found")).
Proof.
  intros Hget Hstatus Hparse Hnd Hbody.
  eexists. split.
  - unfold Website.new, Website.__init__.
    rewrite (set_url_ok W url r soup body _ _ Hget Hstatus Hparse Hnd Hbody).
    reflexivity.
  - unfold Website.title, Website.title_of, title_text. simpl. split.
    + intros i nm j cls s ->. split; [reflexivity |].
      intros Hint. unfold get_text, _all_strings. simpl. rewrite Hint.
      reflexivity.
    + intros ->. reflexivity.
Qed.

(** An instance: the title [T] of the sample page. *)
Lemma title_extracted_witness :
  exists page,
    outcome (Website.new (Sample.world 200 Sample.page_doc [])
               "http://example.com" tt []) = Ok page /\
    Website.title page = Ok (PyStr "T") /\
    title_text Sample.page_doc = Some "T".
Proof.
  destruct (title_extracted (Sample.world 200 Sample.page_doc [])
              "http://example.com" {| status_code := 200; content := "<html>" |}
              Sample.page_doc Sample.page_body [])
    as (page & Hpage & Htitle & _).
  - reflexivity.
  - reflexivity.
  - reflexivity.
  - unfold distinct_objects. vm_compute. repeat constructor; simpl; lia.
  - reflexivity.
  - exists page. split; [exact Hpage |].
    destruct (Htitle 2%nat "title" 3%nat NavigableString "T" eq_refl) as [Ht Htext].
    split; [exact Ht | exact (Htext eq_refl)].
Defined.

(** C4, as stated, fails: an empty title element is present and its text
    is the empty string, but the title extracted is [None]. *)
Lemma empty_title_is_None :
  exists page,
    outcome (Website.new (Sample.world 200 Sample.empty_title_doc [])
               "http://example.com" tt []) = Ok page /\
    title_text Sample.empty_title_doc = Some "" /\
    Website.title page = Ok PyNone /\
    Website.title page <> Ok (PyStr "").
Proof.
  eexists. split; [vm_compute; reflexivity |].
  split; [reflexivity |]. split; [reflexivity | discriminate].
Qed.

Lemma kept_strings_unchanged names body s :
  In s (_all_strings (prune names body)) -> In s (_all_strings body).
Proof.
  unfold _all_strings, prune. rewrite !filter_In. intros [Hin Hint].
  apply in_descendants_drop in Hin. destruct Hin as (m & Hm & ->).
  destruct m as [j cls t | j nm cs]; [auto | discriminate].
Qed.

(** C5.  The text of a page is the text of the body once every script,
    style, img and input element is gone from it, descendants and all:
    the strings joined are strings of the body as parsed, and no object
    below such an element is among them. *)
Theorem body_text_without_irrelevant
    (W : World) (url : string) (r : Response) (soup body : node)
    (log : list event) :
  requests_get W url = Ok r -> status_code r = 200 ->
  BeautifulSoup W (content r) = Ok soup ->
  distinct_objects soup -> find "body" soup = Some body ->
  exists page,
    outcome (Website.new W url tt log) = Ok page /\
    let kept := _all_strings (prune Website.irrelevant_tags body) in
    Website.text page = Ok (String.concat "" (map node_text kept)) /\
    (forall s, In s kept -> In s (_all_strings body)) /\
    (forall x y,
        In x (descendants body) ->
        has_name Website.irrelevant_tags x = true ->
        In y (descendants x) ->
        ~ In (nid y) (ids kept)).
Proof.
  intros Hget Hstatus Hparse Hnd Hbody.
  eexists. split.
  - unfold Website.new, Website.__init__.
    rewrite (set_url_ok W url r soup body _ _ Hget Hstatus Hparse Hnd Hbody).
    reflexivity.
  - split; [reflexivity |]. split.
    + apply kept_strings_unchanged.
    + intros x y Hx Hname Hy Hin.
      assert (Hdistinct : distinct_objects body).
      { eapply distinct_descendant; [apply (find_some _ _ Hbody) | exact Hnd]. }
      apply (pruned_outside Website.irrelevant_tags body Hdistinct x y Hx Hname
               (or_intror Hy)).
      unfold ids, _all_strings in *. rewrite in_map_iff in *.
      destruct Hin as (m & Hm & Hin). apply filter_In in Hin.
      exists m. tauto.
Qed.

(** An instance: the script text [x], object 6, is not in the text. *)
Lemma body_text_without_irrelevant_witness :
  exists page,
    outcome (Website.new (Sample.world 200 Sample.page_doc [])
               "http://example.com" tt []) = Ok page /\
    Website.text page = Ok "Hello" /\
    ~ In 6%nat (ids (_all_strings (prune Website.irrelevant_tags Sample.page_body))).
Proof.
  destruct (body_text_without_irrelevant (Sample.world 200 Sample.page_doc [])
              "http://example.com" {| status_code := 200; content := "<html>" |}
              Sample.page_doc Sample.page_body [])
    as (page & Hpage & Htext & _ & Hout).
  - reflexivity.
  - reflexivity.
  - reflexivity.
  - unfold distinct_objects. vm_compute. repeat constructor; simpl; lia.
  - reflexivity.
  - exists page. split; [exact Hpage |]. split; [exact Htext |].
    apply (Hout (Tag 5 "script" [Str 6 NavigableString "x"])
                (Str 6 NavigableString "x")).
    + simpl. auto.
    + reflexivity.
    + simpl. auto.
Defined.

(** * The prompt *)

(** C6.  For a page whose title and text are the given strings,
    [messages_for] returns exactly two messages, the first with role
    [system] and the second with role [user], and the content of the
    second holds the title and the text as they are. *)
Theorem messages_for_two_messages
    (W : World) (page : Website.t) (title text : string)
    (self : LlmSummarizer.t) (log : list event) :
  reachable W self ->
  Website.title page = Ok (PyStr title) -> Website.text page = Ok text ->
  exists (system user : Message) (content : string),
    outcome (LlmSummarizer.messages_for page self log) = Ok [system; user] /\
    system !! "role" = Some "system" /\
    user !! "role" = Some "user" /\
    user !! "content" = Some content /\
    is_substring title content /\
    is_substring text content.
Proof.
  intros Hreach Htitle Htext.
  exists LlmSummarizer.system_message, (user_message (PyStr title) text),
    (LlmSummarizer.user_prompt_content (PyStr title) text).
  rewrite (messages_for_run page (PyStr title) text self log
             (reachable_cache_ok W self Hreach) Htitle Htext).
  split; [reflexivity |]. split; [reflexivity |]. split; [reflexivity |].
  split; [reflexivity |].
  split; [apply title_in_prompt | apply text_in_prompt].
Qed.

(** An instance: the sample page, on a summarizer just constructed. *)
Lemma messages_for_two_messages_witness :
  exists (system user : Message) (content : string),
    outcome (LlmSummarizer.messages_for
               {| Website.__url := Some "http://example.com";
                  Website.__title := Some (PyStr "T");
                  Website.__text := Some "Hello" |}
               Sample.summarizer []) = Ok [system; user] /\
    system !! "role" = Some "system" /\
    user !! "role" = Some "user" /\
    user !! "content" = Some content /\
    is_substring "T" content /\
    is_substring "Hello" content.
Proof.
  apply (messages_for_two_messages (Sample.world 200 Sample.page_doc [])
           {| Website.__url := Some "http://example.com";
              Website.__title := Some (PyStr "T");
              Website.__text := Some "Hello" |}
           "T" "Hello" Sample.summarizer []).
  - apply reach_init.
  - reflexivity.
  - reflexivity.
Defined.

(** C10.  Two pages with the same title and the same text get the same
    two messages, whatever state either summarizer is in and whatever
    the logs hold; and the first message is, on every call, the one
    system message with its fixed role and content. *)
Theorem messages_for_deterministic
    (W1 W2 : World) (page1 page2 : Website.t)
    (self1 self2 : LlmSummarizer.t) (log1 log2 : list event) :
  reachable W1 self1 -> reachable W2 self2 ->
  populated page1 ->
  Website.title page1 = Website.title page2 ->
  Website.text page1 = Website.text page2 ->
  exists user : Message,
    outcome (LlmSummarizer.messages_for page1 self1 log1) =
      Ok [LlmSummarizer.system_message; user] /\
    outcome (LlmSummarizer.messages_for page2 self2 log2) =
      Ok [LlmSummarizer.system_message; user] /\
    outcome (LlmSummarizer.system_behavior self1 log1) =
      Ok LlmSummarizer.system_message /\
    outcome (LlmSummarizer.system_behavior self2 log2) =
      Ok LlmSummarizer.system_message /\
    LlmSummarizer.system_message !! "role" = Some "system" /\
    LlmSummarizer.system_message !! "content" = Some LlmSummarizer.system_content.
Proof.
  intros Hr1 Hr2 (_ & [title Htitle] & [text Htext]) Etitle Etext.
  apply reachable_cache_ok in Hr1, Hr2.
  assert (Ht1 : Website.title page1 = Ok title)
    by (unfold Website.title; now rewrite Htitle).
  assert (Hx1 : Website.text page1 = Ok text)
    by (unfold Website.text; now rewrite Htext).
  exists (user_message title text).
  rewrite (messages_for_run page1 title text self1 log1 Hr1 Ht1 Hx1).
  rewrite (messages_for_run page2 title text self2 log2 Hr2)
    by congruence.
  rewrite !system_behavior_run by assumption.
  repeat split.
Qed.

(** An instance: two pages at different addresses, the second summarizer
    with its system message already cached. *)
Lemma messages_for_deterministic_witness :
  exists user : Message,
    outcome (LlmSummarizer.messages_for
               {| Website.__url := Some "http://a.example";
                  Website.__title := Some (PyStr "T");
                  Website.__text := Some "Hello" |}
               Sample.summarizer []) =
      Ok [LlmSummarizer.system_message; user] /\
    outcome (LlmSummarizer.messages_for
               {| Website.__url := Some "http://b.example";
                  Website.__title := Some (PyStr "T");
                  Website.__text := Some "Hello" |}
               (cached Sample.summarizer) [EvHttpGet "http://a.example"]) =
      Ok [LlmSummarizer.system_message; user].
Proof.
  destruct (messages_for_deterministic
              (Sample.world 200 Sample.page_doc []) (Sample.world 200 Sample.page_doc [])
              {| Website.__url := Some "http://a.example";
                 Website.__title := Some (PyStr "T");
                 Website.__text := Some "Hello" |}
              {| Website.__url := Some "http://b.example";
                 Website.__title := Some (PyStr "T");
                 Website.__text := Some "Hello" |}
              Sample.summarizer (cached Sample.summarizer)
              [] [EvHttpGet "http://a.example"])
    as (user & H1 & H2 & _).
  - apply reach_init.
  - apply (reach_system_behavior _ Sample.summarizer []). apply reach_init.
  - repeat split; simpl; eauto.
  - reflexivity.
  - reflexivity.
  - exists user. split; assumption.
Defined.

(** * Pages *)

(** C7, as the code has it.  A page that comes out of construction has
    its address, title and text all assigned, and a construction that
    fails gives no page.  The address is not fixed: assigning [url]
    again runs the setter, which on success leaves the page exactly as a
    new page built from the new address. *)
Theorem page_whole_and_reassignable (W : World) :
  (forall (url : string) (log : list event) (page : Website.t),
      outcome (Website.new W url tt log) = Ok page ->
      populated page /\ Website.url page = Ok url) /\
  (forall (url : string) (log : list event) (e : exn),
      outcome (Website.set_url W url Website.unassigned log) = Raise e ->
      outcome (Website.new W url tt log) = Raise e) /\
  (forall (url' : string) (page : Website.t) (log : list event),
      outcome (Website.set_url W url' page log) = Ok tt ->
      Website.url (self_after (Website.set_url W url' page log)) = Ok url' /\
      outcome (Website.new W url' tt log) =
        Ok (self_after (Website.set_url W url' page log))).
Proof.
  split; [| split].
  - intros url log page Hnew.
    destruct (new_populated W url tt log page Hnew) as [Hpop Hurl].
    split; [exact Hpop |]. unfold Website.url. now rewrite Hurl.
  - intros url log e Hfail. rewrite new_set_url. unfold outcome at 1. simpl.
    now rewrite Hfail.
  - intros url' page log Hok.
    destruct (set_url_returns W url' page log Hok) as (_ & Hurl & Hsame).
    split; [unfold Website.url; now rewrite Hurl |].
    rewrite new_set_url. unfold outcome at 1. simpl.
    assert (Hfresh : outcome (Website.set_url W url' Website.unassigned log) = Ok tt).
    { revert Hok.
      unfold Website.set_url, bind, assign, call, lift, raise, outcome.
      destruct (requests_get W url') as [r | e0]; simpl; [| discriminate].
      destruct (status_code r =? 200); simpl; [| discriminate].
      destruct (BeautifulSoup W (content r)) as [soup | e0]; simpl; [| discriminate].
      destruct (find "body" soup) as [body |]; simpl; [| discriminate].
      destruct (find "body" (Website.decompose_all _ soup)); simpl; auto. }
    rewrite Hfresh. f_equal. apply Hsame.
Qed.

(** An instance: a page of the first site is given the second address. *)
Lemma page_whole_and_reassignable_witness :
  Website.url (self_after (Website.set_url Sample.two_sites "http://b.example"
                             {| Website.__url := Some "http://a.example";
                                Website.__title := Some (PyStr "T");
                                Website.__text := Some "Hello" |} []))
  = Ok "http://b.example".
Proof.
  apply (proj2 (proj2 (page_whole_and_reassignable Sample.two_sites))
           "http://b.example"
           {| Website.__url := Some "http://a.example";
              Website.__title := Some (PyStr "T");
              Website.__text := Some "Hello" |} []).
  vm_compute. reflexivity.
Defined.

(** C7, as stated, fails: the address of a page can be set again. *)
Lemma url_set_again :
  exists page page' : Website.t,
    outcome (Website.new Sample.two_sites "http://a.example" tt []) = Ok page /\
    Website.url page = Ok "http://a.example" /\
    Website.set_url Sample.two_sites "http://b.example" page
      [EvHttpGet "http://a.example"] =
      (Ok tt, page', [EvHttpGet "http://a.example"; EvHttpGet "http://b.example"]) /\
    Website.url page' = Ok "http://b.example".
Proof.
  do 2 eexists. split; [vm_compute; reflexivity |].
  split; [reflexivity |]. split; [vm_compute; reflexivity | reflexivity].
Qed.

(** * The presenter *)

(** C8.  A summary that is a non-empty string is printed as markdown;
    [None] and the empty string get the line ["No summary found."], and
    no markdown is rendered for them. *)
Theorem show_summary_renders
    {S : Type} (summary : pyval) (self : S) (log : list event) :
  (forall s, summary = PyStr s -> s <> "" ->
     show_summary summary self log =
       (Ok tt, self, log ++ [EvConsolePrint (Markdown (PyStr s))])) /\
  (summary = PyNone \/ summary = PyStr "" ->
     show_summary summary self log =
       (Ok tt, self, log ++ [EvConsolePrint (Plain "No summary found.")]) /\
     markdown_calls (log_after (show_summary summary self log)) =
       markdown_calls log).
Proof.
  split.
  - intros s -> Hs. unfold show_summary, py_truthy.
    destruct (String.eqb_spec s ""); [contradiction | reflexivity].
  - intros Habsent.
    assert (E : show_summary summary self log =
                (Ok tt, self, log ++ [EvConsolePrint (Plain "No summary found.")]))
      by (destruct Habsent as [-> | ->]; reflexivity).
    split; [exact E |]. rewrite E. unfold log_after, markdown_calls. simpl.
    rewrite List.filter_app, List.length_app. simpl. lia.
Qed.

(** An instance: a summary, and no summary. *)
Lemma show_summary_renders_witness :
  show_summary (PyStr "Summary.") tt [] =
    (Ok tt, tt, [EvConsolePrint (Markdown (PyStr "Summary."))]) /\
  show_summary PyNone tt [] =
    (Ok tt, tt, [EvConsolePrint (Plain "No summary found.")]).
Proof.
  split.
  - apply (proj1 (show_summary_renders (PyStr "Summary.") tt []) "Summary.").
    + reflexivity.
    + discriminate.
  - apply (proj2 (show_summary_renders PyNone tt [])). left. reflexivity.
Defined.

(** * Configuration *)

(** C9.  [get_int] returns [None] for a key the store does not have, and
    raises what [int] raises when the key has a string that [int] does
    not take; a string [int] takes is returned as the integer.  A key
    the store lists without a value reads as [None], like a missing one. *)
Theorem get_int_absent_or_raises (W : World) (self : Config.t) (key : string) :
  (Config._config self !! key = None -> Config.get_int W self key = Ok None) /\
  (forall value e,
      Config._config self !! key = Some (Some value) ->
      int W value = Raise e ->
      Config.get_int W self key = Raise e) /\
  (forall value n,
      Config._config self !! key = Some (Some value) ->
      int W value = Ok n ->
      Config.get_int W self key = Ok (Some n)) /\
  (Config._config self !! key = Some None -> Config.get_int W self key = Ok None).
Proof.
  unfold Config.get_int, Config.get. repeat split.
  - intros ->. reflexivity.
  - intros value e -> ->. reflexivity.
  - intros value n -> ->. reflexivity.
  - intros ->. reflexivity.
Qed.

(** An instance: a key not in the file, one that is no number, and one
    that is. *)
Lemma get_int_absent_or_raises_witness :
  Config.get_int (Sample.world 200 Sample.page_doc []) Sample.config "MISSING"
    = Ok None /\
  Config.get_int (Sample.world 200 Sample.page_doc []) Sample.config "PORT"
    = Raise (ValueError "invalid literal for int() with base 10: 'http'") /\
  Config.get_int (Sample.world 200 Sample.page_doc []) Sample.config "RETRIES"
    = Ok (Some 3).
Proof.
  pose proof (get_int_absent_or_raises (Sample.world 200 Sample.page_doc [])
                Sample.config) as H.
  split; [| split].
  - apply (proj1 (H "MISSING")). vm_compute. reflexivity.
  - apply (proj1 (proj2 (H "PORT")) "http"); vm_compute; reflexivity.
  - apply (proj1 (proj2 (proj2 (H "RETRIES"))) "3"); vm_compute; reflexivity.
Defined.

(** * The whole run *)

(** The spec's round trip: the page is fetched, the title and the text
    without the script go into the prompt, the first choice comes back and
    is printed as markdown. *)
Example round_trip :
  let W := Sample.world 200 Sample.page_doc (Sample.one_choice "Summary.") in
  outcome (main W []) = Ok tt /\
  log_after (main W []) =
    [EvHttpGet "https://cnn.com";
     EvOpenAI (PyStr "sk-test");
     EvChatCreate {| api_key := PyStr "sk-test" |}
       (LlmSummarizer.chat_request
          [LlmSummarizer.system_message; user_message (PyStr "T") "Hello"]);
     EvConsolePrint (Markdown (PyStr "Summary."))].
Proof. split; vm_compute; reflexivity. Qed.

(** * More of the program: the client and the calls [summarize] makes *)

Section Client.

Context (W : World).

Lemma openai_held self client log :
  LlmSummarizer.__openai self = Some client ->
  LlmSummarizer.openai W self log = (Ok client, self, log).
Proof.
  destruct self as [cfg held sb]. simpl. intros ->. reflexivity.
Qed.

Lemma openai_unconfigured self log :
  LlmSummarizer.__openai self = None -> LlmSummarizer.__config self = None ->
  LlmSummarizer.openai W self log =
  (Raise (ValueError "Config not initialized"), self, log).
Proof.
  destruct self as [cfg held sb]. simpl. intros -> ->. reflexivity.
Qed.

Lemma openai_build self cfg log :
  LlmSummarizer.__openai self = None -> LlmSummarizer.__config self = Some cfg ->
  LlmSummarizer.openai W self log =
  (OpenAI W (Config.openai_api_key cfg),
   match OpenAI W (Config.openai_api_key cfg) with
   | Ok client => with_client client self
   | Raise _ => self
   end,
   log ++ [EvOpenAI (Config.openai_api_key cfg)]).
Proof.
  destruct self as [c held sb]. simpl. intros -> ->.
  unfold LlmSummarizer.openai, LlmSummarizer.config, bind, get_self, assign,
    call, ret, with_client. simpl.
  destruct (OpenAI W (Config.openai_api_key cfg)); reflexivity.
Qed.

(** [summarize] given a URL is [summarize] given the page built from it,
    after the GET; when the page cannot be built it stops there. *)
Lemma summarize_url url self log :
  LlmSummarizer.summarize W (inr url) self log =
  match outcome (Website.new W url tt []) with
  | Ok page => LlmSummarizer.summarize W (inl page) self (log ++ [EvHttpGet url])
  | Raise e => (Raise e, self, log ++ [EvHttpGet url])
  end.
Proof.
  unfold LlmSummarizer.summarize, bind at 1.
  rewrite (run_eta (Website.new W url self log)).
  destruct (new_log W url self log) as [-> ->].
  rewrite (new_outcome_irrelevant W url self tt log []).
  destruct (outcome (Website.new W url tt [])); reflexivity.
Qed.

(** Up to the client: the page is there and the messages are built. *)
Lemma summarize_to_openai input self log page msgs :
  fetched W input page ->
  outcome (LlmSummarizer.messages_for page self []) = Ok msgs ->
  LlmSummarizer.summarize W input self log =
  bind (LlmSummarizer.openai W)
    (fun client =>
       bind (call (EvChatCreate client (LlmSummarizer.chat_request msgs))
               (chat_completions_create W client (LlmSummarizer.chat_request msgs)))
         (fun response =>
            match choices response with
            | [] => raise (IndexError "list index out of range")
            | first :: _ => ret (message_content (message first))
            end))
    (self_after (LlmSummarizer.messages_for page self []))
    (log ++ gets_of input).
Proof.
  intros Hfetched Hmsgs.
  assert (Hpage : LlmSummarizer.summarize W input self log =
                  LlmSummarizer.summarize W (inl page) self (log ++ gets_of input)).
  { destruct input as [given | url]; simpl in Hfetched |- *.
    - destruct Hfetched as [-> _]. now rewrite app_nil_r.
    - rewrite summarize_url, Hfetched. reflexivity. }
  rewrite Hpage. unfold LlmSummarizer.summarize, bind at 1. unfold ret at 1.
  unfold bind at 1.
  destruct (messages_for_frame page self (log ++ gets_of input)) as (-> & _ & _).
  rewrite Hmsgs. reflexivity.
Qed.

(** From the client on: what [summarize] returns is what the chat
    completion answers, and the calls are the GET, the construction of
    the client when none is held, and the chat completion. *)
Lemma summarize_with_client input self log page msgs client :
  fetched W input page ->
  outcome (LlmSummarizer.messages_for page self []) = Ok msgs ->
  client_for W self client ->
  exists self3,
    LlmSummarizer.__openai self3 = Some client /\
    LlmSummarizer.summarize W input self log =
    (match chat_completions_create W client (LlmSummarizer.chat_request msgs) with
     | Raise e => Raise e
     | Ok response =>
         match choices response with
         | [] => Raise (IndexError "list index out of range")
         | first :: _ => Ok (message_content (message first))
         end
     end, self3,
     log ++ gets_of input ++ builds_of self ++
     [EvChatCreate client (LlmSummarizer.chat_request msgs)]).
Proof.
  intros Hfetched Hmsgs Hclient.
  rewrite (summarize_to_openai input self log page msgs Hfetched Hmsgs).
  destruct (messages_for_frame page self []) as (_ & Hopenai & Hconfig).
  set (self2 := self_after (LlmSummarizer.messages_for page self [])) in *.
  unfold client_for, builds_of in *. unfold bind at 1.
  destruct (LlmSummarizer.__openai self) as [held |] eqn:Hheld.
  - subst held. rewrite (openai_held self2 client _ Hopenai).
    exists self2. split; [exact Hopenai |].
    unfold bind, call. simpl. rewrite <- !app_assoc.
    destruct (chat_completions_create W client _) as [response | e];
      [destruct (choices response) |]; reflexivity.
  - destruct Hclient as (cfg & Hcfg & Hbuild). rewrite Hcfg.
    rewrite (openai_build self2 cfg _ Hopenai) by congruence.
    rewrite Hbuild. exists (with_client client self2). split; [reflexivity |].
    unfold bind, call. rewrite <- !app_assoc.
    destruct (chat_completions_create W client _) as [response | e];
      [destruct (choices response) |]; reflexivity.
Qed.

End Client.

(** X1.  The client is built once: when [self.openai] has returned a
    client, every later [self.openai] returns that client, changes
    nothing and builds nothing. *)
Theorem openai_built_once
    (W : World) (self self' : LlmSummarizer.t) (client : OpenAIClient)
    (log log' : list event) :
  LlmSummarizer.openai W self log = (Ok client, self', log') ->
  forall log2, LlmSummarizer.openai W self' log2 = (Ok client, self', log2).
Proof.
  intros Hrun log2. apply openai_held.
  destruct (LlmSummarizer.__openai self) as [held |] eqn:Hheld.
  - rewrite (openai_held W self held log Hheld) in Hrun.
    injection Hrun as -> -> _. exact Hheld.
  - destruct (LlmSummarizer.__config self) as [cfg |] eqn:Hcfg.
    + rewrite (openai_build W self cfg log Hheld Hcfg) in Hrun.
      destruct (OpenAI W (Config.openai_api_key cfg)) as [c | e];
        [| discriminate].
      injection Hrun as -> <- _. reflexivity.
    + rewrite (openai_unconfigured W self log Hheld Hcfg) in Hrun. discriminate.
Qed.

(** An instance: the first use builds the client from the key of the
    file, the second finds it. *)
Lemma openai_built_once_witness :
  LlmSummarizer.openai (Sample.world 200 Sample.page_doc [])
    (with_client {| api_key := PyStr "sk-test" |} Sample.summarizer)
    [EvOpenAI (PyStr "sk-test")] =
  (Ok {| api_key := PyStr "sk-test" |},
   with_client {| api_key := PyStr "sk-test" |} Sample.summarizer,
   [EvOpenAI (PyStr "sk-test")]).
Proof.
  apply (openai_built_once (Sample.world 200 Sample.page_doc [])
           Sample.summarizer _ _ [] [EvOpenAI (PyStr "sk-test")]).
  vm_compute. reflexivity.
Defined.

(** X2.  A file without [OPENAI_API_KEY] is not noticed by the program:
    the client is built with [api_key=None], and what that construction
    does is what [self.openai] does. *)
Theorem openai_without_key
    (W : World) (self : LlmSummarizer.t) (cfg : Config.t) (log : list event) :
  LlmSummarizer.__openai self = None ->
  LlmSummarizer.__config self = Some cfg ->
  Config._config cfg !! "OPENAI_API_KEY" = None ->
  outcome (LlmSummarizer.openai W self log) = OpenAI W PyNone /\
  log_after (LlmSummarizer.openai W self log) = log ++ [EvOpenAI PyNone].
Proof.
  intros Hheld Hcfg Hkey. rewrite (openai_build W self cfg log Hheld Hcfg).
  unfold Config.openai_api_key, Config.get. rewrite Hkey. split; reflexivity.
Qed.

Lemma openai_without_key_witness :
  log_after (LlmSummarizer.openai (Sample.world 200 Sample.page_doc [])
               (LlmSummarizer.__init__ (Some Faults.keyless)) []) =
  [EvOpenAI PyNone].
Proof.
  apply (openai_without_key (Sample.world 200 Sample.page_doc [])
           (LlmSummarizer.__init__ (Some Faults.keyless)) Faults.keyless []);
    reflexivity.
Defined.



(** X4.  Whatever stops the page from being built (a status other than
    200, the network, the parser, a document without a body), [summarize]
    raises that same exception, leaves the summarizer as it was and has
    made the GET and no other call. *)
Theorem summarize_page_failure
    (W : World) (url : string) (self : LlmSummarizer.t) (log : list event)
    (e : exn) :
  outcome (Website.new W url tt []) = Raise e ->
  LlmSummarizer.summarize W (inr url) self log =
  (Raise e, self, log ++ [EvHttpGet url]).
Proof.
  intros Hfail. rewrite summarize_url, Hfail. reflexivity.
Qed.

Lemma summarize_page_failure_witness :
  LlmSummarizer.summarize Faults.offline (inr "http://example.com")
    Sample.summarizer [] =
  (Raise (Exn "ConnectionError" "Max retries exceeded"), Sample.summarizer,
   [EvHttpGet "http://example.com"]).
Proof.
  apply (summarize_page_failure Faults.offline "http://example.com"
           Sample.summarizer []).
  vm_compute. reflexivity.
Defined.

(** X5.  The calls of a [summarize] that gets as far as the chat
    completion are, in this order: the GET when the input is a URL, the
    construction of the client when none is held, and one chat
    completion with the fixed model, temperature and token limit and the
    messages built; after it the client is held.  This does not depend
    on what the chat completion answers. *)
Theorem summarize_calls
    (W : World) (input : Website.t + string) (self : LlmSummarizer.t)
    (log : list event) (page : Website.t) (msgs : list Message)
    (client : OpenAIClient) :
  fetched W input page ->
  outcome (LlmSummarizer.messages_for page self []) = Ok msgs ->
  client_for W self client ->
  log_after (LlmSummarizer.summarize W input self log) =
    log ++ gets_of input ++ builds_of self ++
    [EvChatCreate client
       {| model := "gpt-4o-mini"; messages := msgs;
          temperature := 2 # 10; max_tokens := 512 |}] /\
  LlmSummarizer.__openai (self_after (LlmSummarizer.summarize W input self log)) =
    Some client.
Proof.
  intros Hfetched Hmsgs Hclient.
  destruct (summarize_with_client W input self log page msgs client
              Hfetched Hmsgs Hclient) as (self3 & Hheld & ->).
  split; [reflexivity | exact Hheld].
Qed.

Lemma summarize_calls_witness :
  log_after (LlmSummarizer.summarize
               (Sample.world 200 Sample.page_doc (Sample.one_choice "Summary."))
               (inr "http://example.com") Sample.summarizer []) =
  [EvHttpGet "http://example.com";
   EvOpenAI (PyStr "sk-test");
   EvChatCreate {| api_key := PyStr "sk-test" |}
     {| model := "gpt-4o-mini";
        messages := [LlmSummarizer.system_message; user_message (PyStr "T") "Hello"];
        temperature := 2 # 10; max_tokens := 512 |}].
Proof.
  apply (summarize_calls
           (Sample.world 200 Sample.page_doc (Sample.one_choice "Summary."))
           (inr "http://example.com") Sample.summarizer [] Faults.page
           [LlmSummarizer.system_message; user_message (PyStr "T") "Hello"]
           {| api_key := PyStr "sk-test" |}).
  - vm_compute. reflexivity.
  - vm_compute. reflexivity.
  - exists Sample.config. split; vm_compute; reflexivity.
Defined.

(** X6.  An exception of the chat completion comes out of [summarize]
    as it is: nothing catches it and nothing is tried again. *)
Theorem summarize_llm_failure
    (W : World) (input : Website.t + string) (self : LlmSummarizer.t)
    (log : list event) (page : Website.t) (msgs : list Message)
    (client : OpenAIClient) (e : exn) :
  fetched W input page ->
  outcome (LlmSummarizer.messages_for page self []) = Ok msgs ->
  client_for W self client ->
  chat_completions_create W client (LlmSummarizer.chat_request msgs) = Raise e ->
  outcome (LlmSummarizer.summarize W input self log) = Raise e /\
  llm_calls (log_after (LlmSummarizer.summarize W input self log)) =
    S (llm_calls log).
Proof.
  intros Hfetched Hmsgs Hclient Hfail.
  destruct (summarize_with_client W input self log page msgs client
              Hfetched Hmsgs Hclient) as (self3 & _ & ->).
  rewrite Hfail. split; [reflexivity |].
  - unfold log_after, llm_calls. simpl. rewrite !List.filter_app, !List.length_app.
    assert (Hgets : List.filter is_chat_create (gets_of input) = [])
      by (destruct input; reflexivity).
    assert (Hbuilds : List.filter is_chat_create (builds_of self) = []).
    { unfold builds_of. destruct (LlmSummarizer.__openai self);
        [reflexivity |]. destruct (LlmSummarizer.__config self); reflexivity. }
    rewrite Hgets, Hbuilds. simpl. lia.
Qed.

Lemma summarize_llm_failure_witness :
  outcome (LlmSummarizer.summarize Faults.llm_down (inl Faults.page)
             Sample.summarizer []) =
  Raise (Exn "APIConnectionError" "Connection error.").
Proof.
  apply (summarize_llm_failure Faults.llm_down (inl Faults.page)
           Sample.summarizer [] Faults.page
           [LlmSummarizer.system_message; user_message (PyStr "T") "Hello"]
           {| api_key := PyStr "sk-test" |}).
  - split; [reflexivity |]. repeat split; simpl; eauto.
  - vm_compute. reflexivity.
  - exists Sample.config. split; vm_compute; reflexivity.
  - reflexivity.
Defined.

(** X7.  When the client cannot be built, [summarize] raises what the
    construction raised, asks for no chat completion and holds no
    client, so that the next call tries the construction again. *)
Theorem summarize_client_failure
    (W : World) (input : Website.t + string) (self : LlmSummarizer.t)
    (log : list event) (page : Website.t) (msgs : list Message)
    (cfg : Config.t) (e : exn) :
  fetched W input page ->
  outcome (LlmSummarizer.messages_for page self []) = Ok msgs ->
  LlmSummarizer.__openai self = None ->
  LlmSummarizer.__config self = Some cfg ->
  OpenAI W (Config.openai_api_key cfg) = Raise e ->
  outcome (LlmSummarizer.summarize W input self log) = Raise e /\
  log_after (LlmSummarizer.summarize W input self log) =
    log ++ gets_of input ++ [EvOpenAI (Config.openai_api_key cfg)] /\
  LlmSummarizer.__openai (self_after (LlmSummarizer.summarize W input self log)) =
    None.
Proof.
  intros Hfetched Hmsgs Hheld Hcfg Hfail.
  destruct (messages_for_frame page self []) as (_ & Hopenai & Hconfig).
  assert (E : LlmSummarizer.summarize W input self log =
              (Raise e, self_after (LlmSummarizer.messages_for page self []),
               log ++ gets_of input ++ [EvOpenAI (Config.openai_api_key cfg)])).
  { rewrite (summarize_to_openai W input self log page msgs Hfetched Hmsgs).
    unfold bind at 1.
    rewrite (openai_build W (self_after (LlmSummarizer.messages_for page self []))
               cfg (log ++ gets_of input));
      [| rewrite Hopenai; exact Hheld | rewrite Hconfig; exact Hcfg].
    rewrite Hfail, <- app_assoc. reflexivity. }
  rewrite E. repeat split. exact (eq_trans Hopenai Hheld).
Qed.

Lemma summarize_client_failure_witness :
  outcome (LlmSummarizer.summarize Faults.no_client (inl Faults.page)
             Sample.summarizer []) =
  Raise (Exn "OpenAIError" "The api_key client option must be set").
Proof.
  apply (summarize_client_failure Faults.no_client (inl Faults.page)
           Sample.summarizer [] Faults.page
           [LlmSummarizer.system_message; user_message (PyStr "T") "Hello"]
           Sample.config).
  - split; [reflexivity |]. repeat split; simpl; eauto.
  - vm_compute. reflexivity.
  - reflexivity.
  - reflexivity.
  - reflexivity.
Defined.

(** * More of the program: what a method adds to the log *)

Section Emits.

Context {S : Type} (I : S -> Prop) (Q : event -> bool).

Lemma emits_silent {A} (c : M S A) :
  (forall self log, self_after (c self log) = self /\ log_after (c self log) = log) ->
  emits I Q c.
Proof.
  intros H self log HI. destruct (H self log) as [-> ->].
  split; [exact HI |]. exists []. now rewrite app_nil_r.
Qed.

Lemma emits_assign (f : S -> S) :
  (forall self, I self -> I (f self)) -> emits I Q (assign f).
Proof.
  intros H self log HI. split; [now apply H |]. exists []. now rewrite app_nil_r.
Qed.

Lemma emits_call {A} (ev : event) (r : result A) :
  Q ev = true -> emits I Q (call ev r).
Proof.
  intros H self log HI. split; [exact HI |]. exists [ev]. simpl.
  now rewrite H.
Qed.

Lemma emits_bind {A B} (c : M S A) (k : A -> M S B) :
  emits I Q c -> (forall a, emits I Q (k a)) -> emits I Q (bind c k).
Proof.
  intros Hc Hk self log HI.
  destruct (Hc self log HI) as (HI' & added & Hlog & HQ).
  unfold bind, self_after, log_after in *.
  destruct (c self log) as [[[a | e] self'] log']; simpl in *.
  - destruct (Hk a self' log' HI') as (HI'' & added' & Hlog' & HQ').
    split; [exact HI'' |]. exists (added ++ added').
    unfold self_after, log_after in *.
    rewrite Hlog', Hlog, <- app_assoc, forallb_app, HQ, HQ'. auto.
  - split; [exact HI' |]. exists added. auto.
Qed.

End Emits.

Section Never.

Context (W : World).

Ltac silent := apply emits_silent; intros; split; reflexivity.

Lemma messages_for_emits (I : LlmSummarizer.t -> Prop) Q page :
  (forall self, I self -> I (cached self)) ->
  emits I Q (LlmSummarizer.messages_for page).
Proof.
  intros Hcached.
  apply emits_bind.
  - apply emits_bind; [silent |]. intros self.
    destruct (LlmSummarizer.__system_behavior self); [silent |].
    apply emits_bind; [| intros; silent].
    apply emits_assign. exact Hcached.
  - intros system. apply emits_bind; [| intros; silent].
    apply emits_bind; [silent |]. intros title.
    apply emits_bind; [silent |]. intros text. silent.
Qed.

Lemma openai_emits (I : LlmSummarizer.t -> Prop) (Q : event -> bool) :
  (forall self client, I self -> LlmSummarizer.__openai self = None ->
                       I (with_client client self)) ->
  (forall self key, I self -> LlmSummarizer.__openai self = None ->
                    Q (EvOpenAI key) = true) ->
  emits I Q (LlmSummarizer.openai W).
Proof.
  intros Hset Hbuild self log HI.
  destruct (LlmSummarizer.__openai self) as [held |] eqn:Hheld.
  - rewrite (openai_held W self held log Hheld).
    split; [exact HI |]. exists []. now rewrite app_nil_r.
  - destruct (LlmSummarizer.__config self) as [cfg |] eqn:Hcfg.
    + rewrite (openai_build W self cfg log Hheld Hcfg).
      split.
      * unfold self_after. simpl.
        destruct (OpenAI W (Config.openai_api_key cfg)); auto.
      * exists [EvOpenAI (Config.openai_api_key cfg)]. split; [reflexivity |].
        simpl. now rewrite (Hbuild self _ HI Hheld).
    + rewrite (openai_unconfigured W self log Hheld Hcfg).
      split; [exact HI |]. exists []. now rewrite app_nil_r.
Qed.

(** What [summarize] adds to the log, by kind of call. *)
Lemma summarize_emits (I : LlmSummarizer.t -> Prop) (Q : event -> bool) input :
  (forall self, I self -> I (cached self)) ->
  (forall self client, I self -> LlmSummarizer.__openai self = None ->
                       I (with_client client self)) ->
  (forall url, input = inr url -> Q (EvHttpGet url) = true) ->
  (forall self key, I self -> LlmSummarizer.__openai self = None ->
                    Q (EvOpenAI key) = true) ->
  (forall client req, Q (EvChatCreate client req) = true) ->
  emits I Q (LlmSummarizer.summarize W input).
Proof.
  intros Hcached Hset Hget Hbuild Hchat.
  apply emits_bind.
  - destruct input as [page | url]; [silent |].
    intros self log HI. destruct (new_log W url self log) as [-> ->].
    split; [exact HI |]. exists [EvHttpGet url]. simpl.
    now rewrite (Hget url eq_refl).
  - intros page. apply emits_bind; [now apply messages_for_emits |].
    intros msgs. apply emits_bind; [now apply openai_emits |].
    intros client. apply emits_bind; [now apply emits_call |].
    intros response. destruct (choices response); silent.
Qed.

Lemma count_unchanged kind log added :
  forallb (fun ev => negb (kind ev)) added = true ->
  count kind (log ++ added) = count kind log.
Proof.
  intros Hnone. unfold count. rewrite List.filter_app, List.length_app.
  assert (E : List.filter kind added = []).
  { induction added as [| ev added IH]; [reflexivity |].
    simpl in Hnone |- *. apply andb_prop in Hnone. destruct Hnone as [Hev Hrest].
    destruct (kind ev); [discriminate | auto]. }
  rewrite E. simpl. lia.
Qed.

End Never.

(** X8.  Given a page object, [summarize] makes no GET. *)
Theorem summarize_page_no_get
    (W : World) (page : Website.t) (self : LlmSummarizer.t) (log : list event) :
  count is_http_get (log_after (LlmSummarizer.summarize W (inl page) self log)) =
  count is_http_get log.
Proof.
  destruct (summarize_emits W (fun _ => True) (fun ev => negb (is_http_get ev))
              (inl page)) with (self := self) (log := log)
    as (_ & added & -> & Hadded); try (intros; auto; fail).
  - intros url [=].
  - now apply count_unchanged.
Qed.

(** X9.  A summarizer that holds a client keeps it and builds no other,
    whatever it is asked to summarize and however that ends. *)
Theorem summarize_reuses_client
    (W : World) (input : Website.t + string) (self : LlmSummarizer.t)
    (client : OpenAIClient) (log : list event) :
  LlmSummarizer.__openai self = Some client ->
  LlmSummarizer.__openai (self_after (LlmSummarizer.summarize W input self log)) =
    Some client /\
  count is_client_build (log_after (LlmSummarizer.summarize W input self log)) =
  count is_client_build log.
Proof.
  intros Hheld.
  destruct (summarize_emits W (fun s => LlmSummarizer.__openai s = Some client)
              (fun ev => negb (is_client_build ev)) input)
    with (self := self) (log := log)
    as (Hkept & added & -> & Hadded); try (intros; auto; fail).
  - intros s c Hs Hnone. congruence.
  - intros s key Hs Hnone. congruence.
  - split; [exact Hkept | now apply count_unchanged].
Qed.

Lemma summarize_reuses_client_witness :
  count is_client_build
    (log_after (LlmSummarizer.summarize
                  (Sample.world 200 Sample.page_doc (Sample.one_choice "Summary."))
                  (inr "http://example.com")
                  (with_client {| api_key := PyStr "sk-test" |} Sample.summarizer)
                  [EvOpenAI (PyStr "sk-test")])) = 1%nat.
Proof.
  apply (summarize_reuses_client
           (Sample.world 200 Sample.page_doc (Sample.one_choice "Summary."))
           (inr "http://example.com")
           (with_client {| api_key := PyStr "sk-test" |} Sample.summarizer)
           {| api_key := PyStr "sk-test" |} [EvOpenAI (PyStr "sk-test")]).
  reflexivity.
Defined.


(** * More of the program: pages, configuration, the prompt, the text *)

(** X11.  When [url] is assigned again and the fetch fails (the GET
    raises, or answers with a status other than 200), the page is left
    with the new address and the title and text of the old one. *)
Theorem set_url_failure_keeps_content
    (W : World) (url' : string) (page : Website.t) (log : list event) :
  match requests_get W url' with
  | Ok r => status_code r <> 200
  | Raise _ => True
  end ->
  Website.url (self_after (Website.set_url W url' page log)) = Ok url' /\
  Website.title (self_after (Website.set_url W url' page log)) = Website.title page /\
  Website.text (self_after (Website.set_url W url' page log)) = Website.text page.
Proof.
  intros Hfail.
  unfold Website.set_url, bind, assign, call, self_after.
  destruct (requests_get W url') as [r | e]; simpl.
  - destruct (Z.eqb_spec (status_code r) 200) as [E | _]; [contradiction |].
    repeat split.
  - repeat split.
Qed.

Lemma set_url_failure_keeps_content_witness :
  Website.url (self_after (Website.set_url (Sample.world 404 Sample.page_doc [])
                             "http://b.example" Faults.page []))
    = Ok "http://b.example" /\
  Website.title (self_after (Website.set_url (Sample.world 404 Sample.page_doc [])
                               "http://b.example" Faults.page []))
    = Ok (PyStr "T") /\
  Website.text (self_after (Website.set_url (Sample.world 404 Sample.page_doc [])
                              "http://b.example" Faults.page []))
    = Ok "Hello".
Proof.
  apply (set_url_failure_keeps_content (Sample.world 404 Sample.page_doc [])
           "http://b.example" Faults.page []).
  simpl. lia.
Defined.

(** X12.  [str] of a page that construction returned never raises: it is
    [Website(url=..., title="...")] with the address given and the title
    extracted, [None] being written [None]. *)
Theorem str_of_page
    (W : World) (url : string) (log : list event) (page : Website.t) :
  outcome (Website.new W url tt log) = Ok page ->
  exists title,
    Website.title page = Ok title /\
    Website.__str__ page =
      Ok ("Website(url=" +:+ url +:+ ", title=" +:+ dquote +:+ py_str title +:+
          dquote +:+ ")").
Proof.
  intros Hnew.
  destruct (new_populated W url tt log page Hnew) as ((_ & [t Ht] & _) & Hurl).
  exists t. unfold Website.__str__, Website.url, Website.title.
  rewrite Hurl, Ht. split; reflexivity.
Qed.

Lemma str_of_page_witness :
  exists title,
    Website.title Faults.page = Ok title /\
    Website.__str__ Faults.page =
      Ok ("Website(url=" +:+ "http://example.com" +:+ ", title=" +:+ dquote +:+
          py_str title +:+ dquote +:+ ")").
Proof.
  apply (str_of_page (Sample.world 200 Sample.page_doc []) "http://example.com" []
           Faults.page).
  vm_compute. reflexivity.
Defined.

Lemma lower_char_cases (c : ascii) :
  c = lower_char c \/
  (is_lower_letter (lower_char c) = true /\ c = upper_char (lower_char c)).
Proof.
  destruct c as [[] [] [] [] [] [] [] []]; vm_compute;
    first [left; reflexivity | right; split; reflexivity].
Qed.

Lemma lower_spelling (v : string) : In v (spellings (str_lower v)).
Proof.
  induction v as [| c v IH]; simpl; [auto |].
  apply in_flat_map. exists v. split; [exact IH |].
  destruct (lower_char_cases c) as [E | [Hletter E]].
  - rewrite <- E. destruct (is_lower_letter c); simpl; auto.
  - rewrite Hletter. simpl. right. left. now rewrite <- E.
Qed.

(** X13.  [get_bool] never raises.  For a key with a value in ASCII it
    is true exactly for [true], [1] and [yes] written with small or
    capital letters in any mix, and false for every other value; for a
    key the file does not have it is [None]. *)
Theorem get_bool_spellings (self : Config.t) (key : string) :
  (forall value,
      Config._config self !! key = Some (Some value) ->
      is_ascii value = true ->
      exists b, Config.get_bool self key = Some b /\
                (b = true <-> In value truthy_values)) /\
  (Config._config self !! key = None -> Config.get_bool self key = None).
Proof.
  unfold Config.get_bool, Config.get. split.
  - intros value -> _. eexists. split; [reflexivity |].
    rewrite existsb_exists. split.
    + intros (t & Ht & Heq). apply String.eqb_eq in Heq.
      pose proof (lower_spelling value) as Hin. rewrite Heq in Hin.
      unfold truthy_values. rewrite !in_app_iff.
      destruct Ht as [<- | [<- | [<- | []]]]; auto.
    + intros Hin.
      assert (Hall : forallb (fun v => existsb (String.eqb (str_lower v))
                                         ["true"; "1"; "yes"]) truthy_values = true)
        by (vm_compute; reflexivity).
      rewrite forallb_forall in Hall. specialize (Hall value Hin).
      now apply existsb_exists in Hall.
  - intros ->. reflexivity.
Qed.

Lemma get_bool_spellings_witness :
  exists b,
    Config.get_bool {| Config._config := {[ "DEBUG" := Some "Yes" ]} |} "DEBUG"
      = Some b /\
    (b = true <-> In "Yes" truthy_values).
Proof.
  apply (proj1 (get_bool_spellings
                  {| Config._config := {[ "DEBUG" := Some "Yes" ]} |} "DEBUG")
           "Yes").
  - vm_compute. reflexivity.
  - reflexivity.
Defined.

(** X14.  A title element that does not hold exactly one child gives
    the page the title [None], and the prompt then says that the
    website is titled ["None"]. *)
Theorem prompt_of_absent_title
    (W : World) (url : string) (r : Response) (soup body : node)
    (i : nat) (nm : string) (cs : list node) (log : list event) :
  requests_get W url = Ok r -> status_code r = 200 ->
  BeautifulSoup W (content r) = Ok soup ->
  distinct_objects soup -> find "body" soup = Some body ->
  find "title" soup = Some (Tag i nm cs) -> length cs <> 1%nat ->
  exists page,
    outcome (Website.new W url tt log) = Ok page /\
    Website.title page = Ok PyNone /\
    forall self log', reachable W self ->
      exists (user : Message) (content : string),
        outcome (LlmSummarizer.messages_for page self log') =
          Ok [LlmSummarizer.system_message; user] /\
        user !! "content" = Some content /\
        is_substring ("titled " +:+ dquote +:+ "None" +:+ dquote) content.
Proof.
  intros Hget Hstatus Hparse Hnd Hbody Htitle Hcs.
  eexists. split; [| split].
  - unfold Website.new, Website.__init__.
    rewrite (set_url_ok W url r soup body _ _ Hget Hstatus Hparse Hnd Hbody).
    reflexivity.
  - unfold Website.title, Website.title_of. simpl. rewrite Htitle.
    destruct cs as [| c [| c' cs]]; simpl in *; [reflexivity | lia | reflexivity].
  - intros self log' Hreach.
    assert (Hnone : tag_string (Tag i nm cs) = PyNone)
      by (destruct cs as [| c [| c' cs]]; simpl in *; [reflexivity | lia | reflexivity]).
    eexists. eexists.
    erewrite messages_for_run;
      [| now apply (reachable_cache_ok W) | reflexivity | reflexivity].
    split; [reflexivity |]. split; [reflexivity |].
    unfold Website.title_of. rewrite Htitle, Hnone.
    exists "You are looking at the website ". eexists.
    vm_compute. reflexivity.
Qed.

(** An instance: the page with the empty title element. *)
Lemma prompt_of_absent_title_witness :
  exists page,
    outcome (Website.new (Sample.world 200 Sample.empty_title_doc [])
               "http://example.com" tt []) = Ok page /\
    Website.title page = Ok PyNone.
Proof.
  destruct (prompt_of_absent_title (Sample.world 200 Sample.empty_title_doc [])
              "http://example.com" {| status_code := 200; content := "<html>" |}
              Sample.empty_title_doc
              (Tag 4 "body" [Tag 5 "p" [Str 6 NavigableString "Hi"]])
              3%nat "title" [] [])
    as (page & Hpage & Htitle & _).
  - reflexivity.
  - reflexivity.
  - reflexivity.
  - unfold distinct_objects. vm_compute. repeat constructor; simpl; lia.
  - reflexivity.
  - reflexivity.
  - simpl. lia.
  - exists page. split; assumption.
Defined.

Section Kept.

Variable P : node -> bool.

(** A node that is not at or below a removed one is still there. *)
Lemma in_descendants_drop_keep n : forall m,
  In m (descendants n) ->
  (forall x, In x (descendants n) -> P x = true ->
             x <> m /\ ~ In m (descendants x)) ->
  In (drop P m) (descendants (drop P n)).
Proof.
  induction n as [i k s | i nm cs IH] using node_rect_forall; intros m Hm Hfree.
  - destruct Hm.
  - rewrite drop_Tag, descendants_Tag in *. rewrite in_forest in Hm.
    destruct Hm as (c & Hc & Hm).
    assert (Hcin : In c (forest cs)) by (rewrite in_forest; eauto).
    assert (HPc : P c = false).
    { destruct (P c) eqn:E; [| reflexivity].
      destruct (Hfree c Hcin E) as [Hne Hnotin]. destruct Hm; tauto. }
    assert (Hkept : In (drop P c) (drop_forest P cs))
      by (apply in_drop_forest; eauto).
    rewrite in_forest. exists (drop P c). split; [exact Hkept |].
    destruct Hm as [-> | Hm]; [left; reflexivity | right].
    rewrite List.Forall_forall in IH. apply (IH c Hc m Hm).
    intros x Hx HPx. apply Hfree; [| exact HPx].
    eapply forest_trans; eauto.
Qed.

(** What is left after a removal did not satisfy the test. *)
Lemma in_descendants_drop_not n : forall m',
  In m' (descendants (drop P n)) ->
  exists m, In m (descendants n) /\ m' = drop P m /\ P m = false.
Proof.
  induction n as [i k s | i nm cs IH] using node_rect_forall; intros m' Hm'.
  - destruct Hm'.
  - rewrite drop_Tag, descendants_Tag, in_forest in Hm'.
    destruct Hm' as (c' & Hc' & Hm').
    apply in_drop_forest in Hc'. destruct Hc' as (c & Hc & HPc & ->).
    destruct Hm' as [<- | Hm'].
    + exists c. repeat split; [| exact HPc].
      rewrite descendants_Tag, in_forest. eauto.
    + rewrite List.Forall_forall in IH.
      destruct (IH c Hc m' Hm') as (m & Hm & -> & HPm).
      exists m. repeat split; [| exact HPm].
      rewrite descendants_Tag, in_forest. eauto.
Qed.

End Kept.

Lemma filter_none {A} (f : A -> bool) (l : list A) :
  (forall x, In x l -> f x = false) -> List.filter f l = [].
Proof.
  induction l as [| a l IH]; simpl; intros H; [reflexivity |].
  rewrite (H a) by auto. auto.
Qed.

(** X15.  Nothing else is lost: every string of the body that the text
    would hold and that is not below a script, style, img or input
    element is among the strings joined into the text of the page. *)
Theorem body_text_keeps_the_rest
    (W : World) (url : string) (r : Response) (soup body : node)
    (log : list event) :
  requests_get W url = Ok r -> status_code r = 200 ->
  BeautifulSoup W (content r) = Ok soup ->
  distinct_objects soup -> find "body" soup = Some body ->
  exists page kept,
    outcome (Website.new W url tt log) = Ok page /\
    Website.text page = Ok (String.concat "" (map node_text kept)) /\
    forall s,
      In s (_all_strings body) ->
      (forall x, In x (descendants body) ->
                 has_name Website.irrelevant_tags x = true ->
                 ~ In s (descendants x)) ->
      In s kept.
Proof.
  intros Hget Hstatus Hparse Hnd Hbody.
  exists {| Website.__url := Some url;
            Website.__title := Some (Website.title_of soup);
            Website.__text := Some (get_text (prune Website.irrelevant_tags body)) |},
    (_all_strings (prune Website.irrelevant_tags body)).
  split; [| split].
  - unfold Website.new, Website.__init__.
    rewrite (set_url_ok W url r soup body _ _ Hget Hstatus Hparse Hnd Hbody).
    reflexivity.
  - reflexivity.
  - intros s Hs Hfree. unfold _all_strings in *. rewrite filter_In in *.
    destruct Hs as [Hin Hint]. split; [| exact Hint].
    assert (Hsame : drop (has_name Website.irrelevant_tags) s = s)
      by (destruct s; [reflexivity | discriminate]).
    rewrite <- Hsame. apply in_descendants_drop_keep; [exact Hin |].
    intros x Hx Hname. split; [| now apply Hfree].
    intros ->. destruct s; discriminate.
Qed.

Lemma body_text_keeps_the_rest_witness :
  exists page kept,
    outcome (Website.new (Sample.world 200 Sample.page_doc [])
               "http://example.com" tt []) = Ok page /\
    Website.text page = Ok (String.concat "" (map node_text kept)) /\
    In (Str 8 NavigableString "Hello") kept.
Proof.
  destruct (body_text_keeps_the_rest (Sample.world 200 Sample.page_doc [])
              "http://example.com" {| status_code := 200; content := "<html>" |}
              Sample.page_doc Sample.page_body [])
    as (page & kept & Hpage & Htext & Hkept).
  - reflexivity.
  - reflexivity.
  - reflexivity.
  - unfold distinct_objects. vm_compute. repeat constructor; simpl; lia.
  - reflexivity.
  - exists page, kept. split; [exact Hpage |]. split; [exact Htext |].
    apply Hkept.
    + simpl. auto.
    + intros x Hx Hname Hin. simpl in Hx.
      destruct Hx as [<- | [<- | [<- | [<- | []]]]];
        simpl in Hname, Hin; try discriminate.
      destruct Hin as [Hin | []]. discriminate.
Defined.

(** X16.  A body with no script, style, img or input element comes out
    whole: the text of the page is the text of the body as parsed. *)
Theorem body_text_whole
    (W : World) (url : string) (r : Response) (soup body : node)
    (log : list event) :
  requests_get W url = Ok r -> status_code r = 200 ->
  BeautifulSoup W (content r) = Ok soup ->
  distinct_objects soup -> find "body" soup = Some body ->
  find_all Website.irrelevant_tags body = [] ->
  exists page,
    outcome (Website.new W url tt log) = Ok page /\
    Website.text page = Ok (get_text body).
Proof.
  intros Hget Hstatus Hparse Hnd Hbody Hnone.
  eexists. split.
  - unfold Website.new, Website.__init__.
    rewrite (set_url_ok W url r soup body _ _ Hget Hstatus Hparse Hnd Hbody).
    reflexivity.
  - unfold Website.text. simpl. do 2 f_equal.
    unfold prune. rewrite <- (drop_none body) at 2.
    apply drop_ext_in. intros m Hm.
    destruct (has_name Website.irrelevant_tags m) eqn:Hname; [| reflexivity].
    assert (Hin : In m (find_all Website.irrelevant_tags body))
      by (apply filter_In; auto).
    rewrite Hnone in Hin. destruct Hin.
Qed.

Lemma body_text_whole_witness :
  exists page,
    outcome (Website.new (Sample.world 200 Sample.untitled_doc [])
               "http://example.com" tt []) = Ok page /\
    Website.text page = Ok "Hi".
Proof.
  apply (body_text_whole (Sample.world 200 Sample.untitled_doc [])
           "http://example.com" {| status_code := 200; content := "<html>" |}
           Sample.untitled_doc
           (Tag 2 "body" [Tag 3 "p" [Str 4 NavigableString "Hi"]]) []).
  - reflexivity.
  - reflexivity.
  - reflexivity.
  - unfold distinct_objects. vm_compute. repeat constructor; simpl; lia.
  - reflexivity.
  - reflexivity.
Defined.

(** X17.  After the loop the document still has its body, the same
    object, and no script, style, img or input element is left anywhere
    in it. *)
Theorem no_irrelevant_left (soup body : node) :
  distinct_objects soup -> find "body" soup = Some body ->
  exists body',
    find "body" (Website.decompose_all
                   (find_all Website.irrelevant_tags body) soup) = Some body' /\
    nid body' = nid body /\
    find_all Website.irrelevant_tags body' = [].
Proof.
  intros Hnd Hbody. exists (prune Website.irrelevant_tags body).
  split; [now apply body_after_loop |]. split; [apply nid_drop |].
  apply filter_none. intros m' Hm'. unfold prune in Hm'.
  apply in_descendants_drop_not in Hm'. destruct Hm' as (m & _ & -> & Hname).
  now rewrite has_name_drop.
Qed.

Lemma no_irrelevant_left_witness :
  exists body',
    find "body" (Website.decompose_all
                   (find_all Website.irrelevant_tags Sample.page_body)
                   Sample.page_doc) = Some body' /\
    nid body' = 4%nat /\
    find_all Website.irrelevant_tags body' = [].
Proof.
  apply (no_irrelevant_left Sample.page_doc Sample.page_body).
  - unfold distinct_objects. vm_compute. repeat constructor; simpl; lia.
  - reflexivity.
Defined.

(** X18.  Building the messages makes no call across any boundary and
    leaves the client and the configuration of the summarizer alone,
    also when it raises because the page has no title or text. *)
Theorem messages_for_makes_no_call
    (page : Website.t) (self : LlmSummarizer.t) (log : list event) :
  log_after (LlmSummarizer.messages_for page self log) = log /\
  LlmSummarizer.__openai (self_after (LlmSummarizer.messages_for page self log)) =
    LlmSummarizer.__openai self /\
  LlmSummarizer.__config (self_after (LlmSummarizer.messages_for page self log)) =
    LlmSummarizer.__config self.
Proof.
  destruct (messages_for_frame page self log) as (-> & Hopenai & Hconfig).
  repeat split; assumption.
Qed.
